(** * gotch: initialisers, optional modules and batched accuracy evaluation

    A shallow embedding of three Go files of the gotch binding:

    - [nn/init.go]: the initialisers [randnInit] and [kaimingUniformInit]
      with the recursive [factorial];
    - [tensor/module.go]: [BatchAccuracyForLogits],
      [BatchAccuracyForLogitsIdx], [ApplyOpt] and [ApplyOptT];
    - [wrapper/tensor.go]: the [Tensor] struct.

    Go's [float64] is IEEE-754 binary64, which is what the kernel's primitive
    floats are, so floating point code is embedded on [PrimFloat.float] and
    can be evaluated.  A product and the sum it feeds are rounded one after
    the other, as on amd64; the runs evaluated below are exact, so a fused
    multiply-add gives the same values.  Go's [int] and [int64] are 64-bit
    two's complement and [uint64] is 64-bit unsigned; both are embedded on
    [Z] with the wrap-around written out.

    The libtorch runtime behind the binding is not part of the three files:
    its handle table, the gradient switch and the kernels are modelled as an
    explicit [World] on which the Go code runs. *)

From Stdlib Require Import ZArith Lia List Bool Permutation String.
From Stdlib Require Import PrimFloat FloatOps SpecFloat.
From stdpp Require Import base decidable option list sets gmap.

Set Default Proof Using "Type".
Local Open Scope Z_scope.

(* ===================================================================== *)
(** ** Go's numeric types *)
(* ===================================================================== *)

Module GoNum.

(** [int] and [int64]: the representative of [z] in [-2^63, 2^63). *)
Definition wrap_int64 (z : Z) : Z := (z + 2 ^ 63) mod 2 ^ 64 - 2 ^ 63.

(** [uint64]: the representative of [z] in [0, 2^64). *)
Definition wrap_uint64 (z : Z) : Z := z mod 2 ^ 64.

Definition int_add (a b : Z) : Z := wrap_int64 (a + b).
Definition int_sub (a b : Z) : Z := wrap_int64 (a - b).
Definition int_mul (a b : Z) : Z := wrap_int64 (a * b).

(** Go's [/] on integers truncates toward zero and panics on a zero
    divisor; [None] is the run-time panic. *)
Definition int_div (a b : Z) : option Z :=
  if b =? 0 then None else Some (wrap_int64 (Z.quot a b)).

Definition in_int64 (z : Z) : Prop := - 2 ^ 63 <= z < 2 ^ 63.

(** The conversion [float64(n)] of an integer: the nearest binary64 value,
    ties to even. *)
Definition float64_of_Z (z : Z) : float :=
  SF2Prim (binary_normalize prec emax z 0 false).

(** Two floats are told apart by their decoded form. *)
Definition float_neq (x y : float) : Prop := Prim2SF x <> Prim2SF y.

End GoNum.

(* ===================================================================== *)
(** ** package gotch: devices and element kinds *)
(* ===================================================================== *)

Module gotch.

(** Modelled from the spec: the placement tag of a Handle ("processor vs
    accelerator"); the package that declares [gotch.Device] and [gotch.CPU]
    is not among the three files. *)
Inductive Device : Type :=
  | CPU
  | Cuda (index : Z).

(** Modelled from the spec: the element kind of a Handle; only the two kinds
    the three files name. *)
Inductive DType : Type :=
  | Int64
  | Float.

End gotch.

(* ===================================================================== *)
(** ** package nn: [init.go] *)
(* ===================================================================== *)

Module nn.
Import GoNum.

(** What an initialiser can end in: a value, the process exit of
    [log.Fatalf], or a run-time panic of Go itself. *)
Inductive result (A : Type) : Type :=
  | Ok (a : A)
  | Fatal
  | Panic.
Arguments Ok {A} a.
Arguments Fatal {A}.
Arguments Panic {A}.

(** The host-side view of a [ts.Tensor]: its shape and its elements in
    row-major order. *)
Record Tensor : Type := mkTensor {
  shape : list Z;
  elems : list float
}.

(** Modelled from the spec: [ts.FlattenDim], the element count
    [product(shape)]; the function is not among the three files. *)
Definition FlattenDim (dims : list Z) : Z := fold_right Z.mul 1 dims.

(** [make([]float64, n)]: [n] zeroes, or a panic on a negative length. *)
Definition make_float64 (n : Z) : option (list float) :=
  if n <? 0 then None else Some (repeat 0%float (Z.to_nat n)).

(** Modelled from the spec: [ts.NewTensorFromData], which fails with a shape
    mismatch when a dimension is negative (a shape is a sequence of
    non-negative sizes) or when the data's length is not [product(shape)];
    the function is not among the three files. *)
Definition NewTensorFromData (data : list float) (dims : list Z) : option Tensor :=
  if forallb (fun n => 0 <=? n) dims
     && (Z.of_nat (length data) =? FlattenDim dims)
  then Some (mkTensor dims data) else None.

(** Modelled from the spec: [ts.MustZeros], a zero-filled Handle of the
    given shape; the function is not among the three files. *)
Definition MustZeros (dims : list Z) (device : gotch.Device) : result Tensor :=
  match make_float64 (FlattenDim dims) with
  | Some data => Ok (mkTensor dims data)
  | None => Fatal
  end.

(** Modelled from the spec: [Tensor.Size], the shape of an existing Handle. *)
Definition Size (t : Tensor) : option (list Z) := Some (shape t).

(** Modelled from the spec: [Tensor.Copy_], which overwrites the elements of
    the receiver with those of [src]. *)
Definition Copy_ (t src : Tensor) : Tensor := mkTensor (shape t) (elems src).

(** [factorial], lines 160-166: [uint64] recursion, the product wrapping
    modulo [2^64].  [depth] bounds the recursion by the argument itself. *)
Fixpoint factorial_rec (depth : nat) (n : Z) : Z :=
  match depth with
  | O => 1
  | S d => if n >? 0 then wrap_uint64 (n * factorial_rec d (n - 1)) else 1
  end.

Definition factorial (n : Z) : Z := factorial_rec (Z.to_nat n) n.

(** The factorial of the spec's words: the mathematical one, on unbounded
    integers. *)
Fixpoint factorial_spec (n : nat) : Z :=
  match n with
  | O => 1
  | S k => Z.of_nat n * factorial_spec k
  end.

Section Samplers.

(** The generators are not code of the three files.  [NormFloat64 i] is the
    [i]-th draw of [rd.NormFloat64()] on the generator [rd] that each call
    creates afresh; [uniform_draw lo hi i] is the [i]-th element the
    runtime's in-place uniform sampler writes for the bounds [lo], [hi].
    Lines 76 and 101 build [rd] as [rand.Rand{}], a generator without a
    source: the draws are those of a generator that has one, so what is
    proved of [randnInit] is the arithmetic of lines 79 and 104 and the
    shape of the result, not that a draw is delivered. *)
Variable NormFloat64 : nat -> float.
Variable uniform_draw : float -> float -> nat -> float.

(** *** randnInit *)

Record randnInit : Type := mkRandnInit {
  mean : float;
  stdev : float
}.

Definition NewRandnInit (mean stdev : float) : randnInit := mkRandnInit mean stdev.

(** The loop [for i := range data { data[i] = rd.NormFloat64()*r.mean + r.stdev }],
    lines 78-80 and 103-105. *)
Definition randn_fill (r : randnInit) (data : list float) : list float :=
  imap (fun i _ => (NormFloat64 i * mean r + stdev r)%float) data.

Definition randnInit_InitTensor (r : randnInit) (dims : list Z)
    (device : gotch.Device) : result Tensor :=
  match make_float64 (FlattenDim dims) with
  | None => Panic
  | Some data =>
      match NewTensorFromData (randn_fill r data) dims with
      | Some retVal => Ok retVal
      | None => Fatal
      end
  end.

Definition randnInit_Set (r : randnInit) (tensor : Tensor) : result Tensor :=
  match Size tensor with
  | None => Fatal
  | Some dims =>
      match make_float64 (FlattenDim dims) with
      | None => Panic
      | Some data =>
          match NewTensorFromData (randn_fill r data) dims with
          | Some randnTs => Ok (Copy_ tensor randnTs)
          | None => Fatal
          end
      end
  end.

(** The sample of the spec's words: [mean + stdev * z]. *)
Definition normal_sample_spec (mean stdev z : float) : float :=
  (mean + stdev * z)%float.

(** *** kaimingUniformInit *)

(** Modelled from the spec: [Tensor.Uniform_], the runtime's in-place uniform
    sampler; it redraws every element and keeps the shape. *)
Definition Uniform_ (t : Tensor) (lo hi : float) : Tensor :=
  mkTensor (shape t) (imap (fun i _ => uniform_draw lo hi i) (elems t)).

(** [bound := math.Sqrt(1.0 / float64(factorial(uint64(len(dims) - 1))))],
    lines 151-152 and 173-174. *)
Definition kaiming_bound (dims : list Z) : float :=
  let fanIn := factorial (wrap_uint64 (int_sub (Z.of_nat (length dims)) 1)) in
  PrimFloat.sqrt (1 / float64_of_Z fanIn)%float.

Definition kaimingUniformInit_InitTensor (dims : list Z)
    (device : gotch.Device) : result Tensor :=
  let bound := kaiming_bound dims in
  match MustZeros dims device with
  | Ok retVal => Ok (Uniform_ retVal (- bound)%float bound)
  | Fatal => Fatal
  | Panic => Panic
  end.

Definition kaimingUniformInit_Set (tensor : Tensor) : result Tensor :=
  match Size tensor with
  | None => Fatal
  | Some dims =>
      let bound := kaiming_bound dims in
      Ok (Uniform_ tensor (- bound)%float bound)
  end.

(** The bound of the spec's words, [sqrt(1 / factorial(rank - 1))], with the
    mathematical factorial. *)
Definition kaiming_bound_spec (dims : list Z) : float :=
  PrimFloat.sqrt (1 / float64_of_Z (factorial_spec (length dims - 1)%nat))%float.

(** [x] lies in the closed interval [[lo, hi]]. *)
Definition within (lo hi x : float) : bool :=
  (PrimFloat.leb lo x && PrimFloat.leb x hi)%bool.

End Samplers.

(** *** constInit, lines 23-61 *)

Record constInit : Type := mkConstInit {
  value : float
}.

Definition NewConstInit (v : float) : constInit := mkConstInit v.

(** Modelled from the spec: [ts.MustOnes], a one-filled Handle of the given
    shape; the function is not among the three files. *)
Definition MustOnes (dims : list Z) (device : gotch.Device) : result Tensor :=
  match make_float64 (FlattenDim dims) with
  | Some data => Ok (mkTensor dims (map (fun _ => 1%float) data))
  | None => Fatal
  end.

(** Modelled from the spec: [tensor.Fill_], the runtime's in-place constant
    fill; it overwrites every element and keeps the shape. *)
Definition Fill_ (t : Tensor) (v : float) : Tensor :=
  mkTensor (shape t) (map (fun _ => v) (elems t)).

(** Lines 31-51.  The [switch] compares with Go's [==] on [float64]. *)
Definition constInit_InitTensor (c : constInit) (dims : list Z)
    (device : gotch.Device) : result Tensor :=
  if PrimFloat.eqb (value c) 0 then MustZeros dims device
  else if PrimFloat.eqb (value c) 1 then MustOnes dims device
  else
    match make_float64 (FlattenDim dims) with
    | None => Panic
    | Some data =>
        match NewTensorFromData (map (fun _ => value c) data) dims with
        | Some retVal => Ok retVal
        | None => Fatal
        end
    end.

(** Lines 53-61.  [err] is never assigned, so the [log.Fatalf] is not
    reached. *)
Definition constInit_Set (c : constInit) (tensor : Tensor) : result Tensor :=
  Ok (Fill_ tensor (value c)).

(** *** uniformInit, lines 117-139 *)

Record uniformInit : Type := mkUniformInit {
  lo : float;
  up : float
}.

Definition NewUniformInit (lo up : float) : uniformInit := mkUniformInit lo up.

(** Lines 126-135.  [err] is never assigned here either. *)
Definition uniformInit_InitTensor (uniform_draw : float -> float -> nat -> float)
    (u : uniformInit) (dims : list Z) (device : gotch.Device) : result Tensor :=
  match MustZeros dims device with
  | Ok retVal => Ok (Uniform_ uniform_draw retVal (lo u) (up u))
  | Fatal => Fatal
  | Panic => Panic
  end.

Definition uniformInit_Set (uniform_draw : float -> float -> nat -> float)
    (u : uniformInit) (tensor : Tensor) : result Tensor :=
  Ok (Uniform_ uniform_draw tensor (lo u) (up u)).

(** *** The interface [Init], lines 12-18 *)

(** An interface value is the pair of methods it carries. *)
Record Init : Type := mkInit {
  Init_InitTensor : list Z -> gotch.Device -> result Tensor;
  Init_Set : Tensor -> result Tensor
}.

Definition constInit_Init (c : constInit) : Init :=
  mkInit (constInit_InitTensor c) (constInit_Set c).

Definition randnInit_Init (NormFloat64 : nat -> float) (r : randnInit) : Init :=
  mkInit (randnInit_InitTensor NormFloat64 r) (randnInit_Set NormFloat64 r).

Definition uniformInit_Init (uniform_draw : float -> float -> nat -> float)
    (u : uniformInit) : Init :=
  mkInit (uniformInit_InitTensor uniform_draw u) (uniformInit_Set uniform_draw u).

Definition NewKaimingUniformInit (uniform_draw : float -> float -> nat -> float)
    : Init :=
  mkInit (kaimingUniformInit_InitTensor uniform_draw)
         (kaimingUniformInit_Set uniform_draw).

(** A tensor holds as many elements as its shape says. *)
Definition well_formed (t : Tensor) : Prop :=
  Z.of_nat (length (elems t)) = FlattenDim (shape t).

(** An initialiser keeps to the shape: what it creates has the requested
    shape and as many elements as the shape says, and re-initialising a
    well-formed tensor in place leaves its shape and element count alone. *)
Definition keeps_shape (i : Init) : Prop :=
  (forall dims device t,
     Init_InitTensor i dims device = Ok t -> shape t = dims /\ well_formed t)
  /\ (forall t t',
     well_formed t -> Init_Set i t = Ok t' -> shape t' = shape t /\ well_formed t').

(** *** Transposed convolution layers, lines 194-331 *)

(** [ConvTranspose1DConfig], [ConvTranspose2DConfig] and
    [ConvTranspose3DConfig] declare the same eight fields. *)
Record ConvTransposeConfig : Type := mkConvTransposeConfig {
  Stride : list Z;
  Padding : list Z;
  OutputPadding : list Z;
  Dilation : list Z;
  Groups : Z;
  Bias : bool;
  WsInit : Init;
  BsInit : Init
}.

(** Lines 238-249. *)
Definition DefaultConvTranspose1DConfig
    (uniform_draw : float -> float -> nat -> float) : ConvTransposeConfig :=
  mkConvTransposeConfig [1] [0] [0] [1] 1 true
    (NewKaimingUniformInit uniform_draw) (constInit_Init (NewConstInit 0)).

(** [ConvTranspose1D], [ConvTranspose2D] and [ConvTranspose3D]: the weight,
    the optional bias (the zero [Tensor] when there is none) and the
    configuration. *)
Record ConvTranspose : Type := mkConvTranspose {
  Ws : Tensor;
  Bs : option Tensor;
  Config : ConvTransposeConfig
}.

(** Modelled from the spec: the variable store behind [*Path], which holds
    the parameter Handles a constructor allocates, by name and in the order
    of their creation; the type [Path] is not among the three files. *)
Record Path : Type := mkPath {
  path_device : gotch.Device;
  variables : list (string * Tensor)
}.

(** A constructor runs on the store: it ends in a value, a [log.Fatalf] or
    a panic, and in the store as it then is. *)
Definition V (A : Type) : Type := Path -> result A * Path.

Definition vret {A} (a : A) : V A := fun vs => (Ok a, vs).

Definition vbind {A B} (c : V A) (k : A -> V B) : V B :=
  fun vs =>
    match c vs with
    | (Ok a, vs') => k a vs'
    | (Fatal, vs') => (Fatal, vs')
    | (Panic, vs') => (Panic, vs')
    end.

Definition vfatal {A} : V A := fun vs => (Fatal, vs).
Definition vpanic {A} : V A := fun vs => (Panic, vs).

Declare Scope store_scope.
Delimit Scope store_scope with store.
Notation "x <- c ;; k" := (vbind c (fun x => k))
  (at level 100, c at next level, right associativity) : store_scope.

(** Modelled from the spec: [vs.NewVar(name, dims, init)] creates the Handle
    with the initialiser and adds it to the store. *)
Definition NewVar (name : string) (dims : list Z) (init : Init) : V Tensor :=
  fun vs =>
    match Init_InitTensor init dims (path_device vs) with
    | Ok t => (Ok t, mkPath (path_device vs) (variables vs ++ [(name, t)]))
    | Fatal => (Fatal, vs)
    | Panic => (Panic, vs)
    end.

(** Lines 257-272, 280-295 and 303-317: the three constructors are the same
    text but for the number [rank] of kernel sizes they require. *)
Definition NewConvTransposeND (rank : nat) (inDim outDim : Z)
    (ksizes : list Z) (cfg : ConvTransposeConfig) : V ConvTranspose :=
  (if negb (length ksizes =? rank)%nat then vfatal
   else
     bs <- (if Bias cfg
            then b <- NewVar "bias" [outDim] (BsInit cfg) ;; vret (Some b)
            else vret None) ;;
     q <- match int_div inDim (Groups cfg) with
          | Some q => vret q
          | None => vpanic
          end ;;
     weightSize <- vret ([outDim; q] ++ ksizes) ;;
     ws <- NewVar "weight" weightSize (WsInit cfg) ;;
     vret (mkConvTranspose ws bs cfg))%store.

Definition NewConvTranspose1D := NewConvTransposeND 1.
Definition NewConvTranspose2D := NewConvTransposeND 2.
Definition NewConvTranspose3D := NewConvTransposeND 3.

End nn.

(* ===================================================================== *)
(** ** package tensor: [module.go] *)
(* ===================================================================== *)

Module tensor.
Import GoNum.

(** *** Handles and the runtime they live in *)

(** The address of a [lib.C_tensor]: the foreign resource identifier. *)
Definition handle : Type := positive.

#[local] Set Warnings "-register-all".

(** What a tensor holds, seen along its leading dimension: a scalar of kind
    [Float] or [Int64], or the sequence of its rows. *)
Inductive value : Type :=
  | Num (f : float)
  | Int (z : Z)
  | Rows (rs : list value).

(** A [Tensor] is a pointer to the foreign resource, as [wrapper/tensor.go]
    declares it: [struct { ctensor *lib.C_tensor }].  The device and the
    contents belong to the foreign resource; the embedding carries them
    beside the pointer, so a released Handle still shows what it held. *)
Record Tensor : Type := mkTensor {
  ctensor : handle;
  device : gotch.Device;
  content : value
}.

(** The calls made into a module's [ForwardT] and into the runtime's
    logits-accuracy primitive, with their arguments and result.  The log of
    these calls is how the embedding observes which batches an evaluator
    forms and in which mode it runs the module. *)
Inductive call : Type :=
  | CallForwardT (xs : Tensor) (train : bool) (retVal : Tensor)
  | CallAccuracyForLogits (logits targets retVal : Tensor).

(** Modelled from the spec: the foreign runtime as far as the evaluators see
    it.  [grad_enabled] is the process-wide gradient-tracking mode, [live]
    the resources allocated and not yet released, [next_handle] the next
    address the allocator hands out (an address is not reused), [calls] the
    log of kernel calls, oldest first. *)
Record World : Type := mkWorld {
  grad_enabled : bool;
  live : gset handle;
  next_handle : handle;
  calls : list call
}.

(** The kernels of the runtime, which are out of the three files: the metric
    behind [AccuracyForLogits], the permutation [MustRandperm n] draws, and
    whether [AccuracyForLogits] releases its receiver, which neither the
    spec nor the three files say. *)
Record Runtime : Type := mkRuntime {
  accuracy_kernel : value -> value -> float;
  randperm : nat -> list nat;
  accuracy_consumes : bool
}.

(** How a Go function ends: it returns, it panics, or the embedding's bound
    on an unbounded [for] loop ran out. *)
Inductive outcome (A : Type) : Type :=
  | Ret (a : A) (w : World)
  | Panicked (w : World)
  | OutOfFuel.
Arguments Ret {A} a w.
Arguments Panicked {A} w.
Arguments OutOfFuel {A}.

Definition M (A : Type) : Type := World -> outcome A.

Definition ret {A} (a : A) : M A := fun w => Ret a w.

Definition bind {A B} (c : M A) (k : A -> M B) : M B :=
  fun w =>
    match c w with
    | Ret a w' => k a w'
    | Panicked w' => Panicked w'
    | OutOfFuel => OutOfFuel
    end.

Definition panic {A} : M A := fun w => Panicked w.

(** [defer cleanup] before [body]: the deferred call runs when the body
    returns and when it panics. *)
Definition defer {A} (cleanup : M unit) (body : M A) : M A :=
  fun w =>
    match body w with
    | Ret a w' =>
        match cleanup w' with
        | Ret _ w'' => Ret a w''
        | Panicked w'' => Panicked w''
        | OutOfFuel => OutOfFuel
        end
    | Panicked w' =>
        match cleanup w' with
        | Ret _ w'' => Panicked w''
        | Panicked w'' => Panicked w''
        | OutOfFuel => OutOfFuel
        end
    | OutOfFuel => OutOfFuel
    end.

Declare Scope go_scope.
Delimit Scope go_scope with go.
Notation "x <- c ;; k" := (bind c (fun x => k))
  (at level 100, c at next level, right associativity) : go_scope.
Notation "c ;; k" := (bind c (fun _ => k))
  (at level 100, right associativity) : go_scope.
Local Open Scope go_scope.

(** The value a run returned, and the world it ended in. *)
Definition returned {A} (o : outcome A) : option A :=
  match o with Ret a _ => Some a | _ => None end.

Definition final_world {A} (o : outcome A) : option World :=
  match o with Ret _ w | Panicked w => Some w | OutOfFuel => None end.

(** *** Primitives of the binding *)

(** The world after the allocation of the next address, and after the
    release of [h]. *)
Definition allocated (w : World) : World :=
  mkWorld (grad_enabled w) ({[ next_handle w ]} ∪ live w)
          (Pos.succ (next_handle w)) (calls w).

Definition released (h : handle) (w : World) : World :=
  mkWorld (grad_enabled w) (live w ∖ {[ h ]}) (next_handle w) (calls w).

(** Modelled from the spec: the runtime allocates a resource for every
    Handle an operation creates. *)
Definition alloc (d : gotch.Device) (v : value) : M Tensor :=
  fun w => Ret (mkTensor (next_handle w) d v) (allocated w).

(** Modelled from the spec: [MustDrop], the explicit release. *)
Definition MustDrop (ts : Tensor) : M unit :=
  fun w => Ret tt (released (ctensor ts) w).

Definition log_call (c : call) : M unit :=
  fun w =>
    Ret tt (mkWorld (grad_enabled w) (live w) (next_handle w) (calls w ++ [c])).

(** Modelled from the spec: [MustGradSetEnabled] sets the process-wide mode
    and returns the mode it replaces. *)
Definition MustGradSetEnabled (b : bool) : M bool :=
  fun w =>
    Ret (grad_enabled w) (mkWorld b (live w) (next_handle w) (calls w)).

(** Modelled from the spec: the ResourceGuard, a scoped toggle of the
    gradient-tracking mode that holds the mode it found; the type
    [NoGradGuard] is not among the three files. *)
Record NoGradGuard : Type := mkNoGradGuard { enabled : bool }.

(** Modelled from the spec: [NewNoGradGuard] switches gradient tracking off
    for the lifetime of the guard and remembers the prior mode. *)
Definition NewNoGradGuard : M NoGradGuard :=
  prior <- MustGradSetEnabled false ;; ret (mkNoGradGuard prior).

(** Modelled from the spec: [noGradGuard.Drop()] restores the prior mode. *)
Definition NoGradGuard_Drop (g : NoGradGuard) : M unit :=
  MustGradSetEnabled (enabled g) ;; ret tt.

(** Modelled from the spec: [ts.MustSize()[0]], the leading dimension of the
    shape; a scalar has no dimension and the index expression panics. *)
Definition MustSize0 (ts : Tensor) : M Z :=
  match content ts with
  | Rows rs => ret (Z.of_nat (length rs))
  | _ => panic
  end.

(** Modelled from the spec: [MustTo(d, del)] moves a Handle to the device
    [d], which creates a Handle; [del] asks for the release of the source. *)
Definition MustTo (ts : Tensor) (d : gotch.Device) (del : bool) : M Tensor :=
  moved <- alloc d (content ts) ;;
  (if del then MustDrop ts else ret tt) ;;
  ret moved.

(** The rows [[start, start + len)] of a leading dimension. *)
Definition narrow_rows (start len : Z) (rs : list value) : option (list value) :=
  if (0 <=? start) && (0 <=? len) && (start + len <=? Z.of_nat (length rs))
  then Some (take (Z.to_nat len) (drop (Z.to_nat start) rs))
  else None.

(** Modelled from the spec: slicing a contiguous range along the leading
    dimension creates a Handle; a range outside the tensor is an error of
    the runtime. *)
Definition MustNarrow (ts : Tensor) (start len : Z) : M Tensor :=
  match content ts with
  | Rows rs =>
      match narrow_rows start len rs with
      | Some sl => alloc (device ts) (Rows sl)
      | None => panic
      end
  | _ => panic
  end.

(** Modelled from the spec: [NewNarrow(start, end)], the index of the rows
    [[start, end)], as lines 125-127 use it. *)
Record Narrow : Type := NewNarrow { Start : Z; End : Z }.

(** Modelled from the spec: [ts.Idx(narrowIndex)], the slice of the rows the
    index names. *)
Definition Idx (ts : Tensor) (n : Narrow) : M Tensor :=
  MustNarrow ts (Start n) (End n - Start n).

(** Modelled from the spec: [MustRandperm(n, kind, device)], a permutation
    of [[0, n)] as a Handle of kind [Int64]. *)
Definition MustRandperm (rt : Runtime) (n : Z) (kind : gotch.DType)
    (d : gotch.Device) : M Tensor :=
  alloc d (Rows (map (fun i => Int (Z.of_nat i)) (randperm rt (Z.to_nat n)))).

(** The row positions an index tensor names. *)
Definition index_positions (v : value) : option (list nat) :=
  match v with
  | Rows ixs =>
      mapM (fun i => match i with
                     | Int z => if 0 <=? z then Some (Z.to_nat z) else None
                     | _ => None
                     end) ixs
  | _ => None
  end.

(** Modelled from the spec: [MustIndexSelect(0, index, del)], the rows of
    [ts] at the positions of [index], in the order of [index]. *)
Definition MustIndexSelect (ts : Tensor) (dim : Z) (index : Tensor)
    (del : bool) : M Tensor :=
  match content ts, index_positions (content index) with
  | Rows rs, Some ps =>
      match mapM (fun p => rs !! p) ps with
      | Some sel =>
          out <- alloc (device ts) (Rows sel) ;;
          (if del then MustDrop ts else ret tt) ;;
          ret out
      | None => panic
      end
  | _, _ => panic
  end.

(** Modelled from the spec: [ts.Values()], the read-back of the elements as
    [float64], in row-major order. *)
Fixpoint values_of (v : value) : list float :=
  match v with
  | Num f => [f]
  | Int z => [float64_of_Z z]
  | Rows rs => flat_map values_of rs
  end.

Definition Values (ts : Tensor) : list float := values_of (content ts).

(** Modelled from the spec: [AccuracyForLogits], the runtime's
    logits-accuracy primitive; it creates the Handle of the accuracy
    scalar.  A runtime with [accuracy_consumes] releases the receiver, the
    logits, on the way; one without leaves it live.  The targets are left
    alone: the evaluators drop them afterwards. *)
Definition AccuracyForLogits (rt : Runtime) (logits targets : Tensor) : M Tensor :=
  retVal <- alloc (device logits)
                  (Num (accuracy_kernel rt (content logits) (content targets))) ;;
  (if accuracy_consumes rt then MustDrop logits else ret tt) ;;
  log_call (CallAccuracyForLogits logits targets retVal) ;;
  ret retVal.

(** Modelled from the spec: [MustShallowClone], a second Handle that
    references the same foreign resource; nothing is allocated. *)
Definition MustShallowClone (ts : Tensor) : M Tensor :=
  ret (mkTensor (ctensor ts) (device ts) (content ts)).

(** *** The interfaces [Module] and [ModuleT], lines 12-23 *)

(** An interface value is the method it carries: the transformation of the
    contents that the module's forward pass computes. *)
Record Module : Type := mkModule { forward : value -> value }.
Record ModuleT : Type := mkModuleT { forwardT : value -> bool -> value }.

(** Modelled from the spec: a forward pass creates the Handle of its result
    (the runtime allocates it, on the device of the input) and releases
    nothing; the implementations of the interfaces are not among the three
    files. *)
Definition Forward (m : Module) (xs : Tensor) : M Tensor :=
  alloc (device xs) (forward m (content xs)).

Definition ForwardT (m : ModuleT) (xs : Tensor) (train : bool) : M Tensor :=
  retVal <- alloc (device xs) (forwardT m (content xs) train) ;;
  log_call (CallForwardT xs train retVal) ;;
  ret retVal.

(** *** The batch iterator behind [MustNewIter2] and [Next] *)

(** Modelled from the spec: the BatchIterator under the drop-partial policy.
    It slices the contiguous ranges [[i*B, i*B+B)] of both Handles and stops
    when fewer than [B] rows remain; the type [Iter2] and its methods are
    not among the three files. *)
Record Iter2 : Type := mkIter2 {
  it_xs : Tensor;
  it_ys : Tensor;
  it_batchIndex : Z;
  it_batchSize : Z;
  it_totalSize : Z
}.

(** Modelled from the spec: the BatchItem, a pair of Handles that share
    their leading dimension. *)
Record Iter2Item : Type := mkIter2Item {
  Data : Tensor;
  Label : Tensor
}.

(** Modelled from the spec: [MustNewIter2] takes two Handles that share their
    leading dimension; the Must form panics on a pair that does not. *)
Definition MustNewIter2 (xs ys : Tensor) (batchSize : Z) : M Iter2 :=
  n <- MustSize0 xs ;;
  n' <- MustSize0 ys ;;
  if n =? n' then ret (mkIter2 xs ys 0 batchSize n) else panic.

(** Modelled from the spec: [iter2.Next()] yields the next full batch and
    advances, or yields nothing when fewer than [B] rows remain. *)
Definition Iter2_Next (it : Iter2) : M (option Iter2Item * Iter2) :=
  let start := int_mul (it_batchIndex it) (it_batchSize it) in
  if int_sub (it_totalSize it) start <? it_batchSize it
  then ret (None, it)
  else
    data <- MustNarrow (it_xs it) start (it_batchSize it) ;;
    label <- MustNarrow (it_ys it) start (it_batchSize it) ;;
    ret (Some (mkIter2Item data label),
         mkIter2 (it_xs it) (it_ys it) (int_add (it_batchIndex it) 1)
                 (it_batchSize it) (it_totalSize it)).

(** *** [BatchAccuracyForLogits], lines 59-91 *)

(** Lines 76-87: what the loop does with one item. *)
Definition BatchAccuracyForLogits_body (rt : Runtime) (m : ModuleT)
    (d : gotch.Device) (item : Iter2Item) (sumAccuracy sampleCount : float)
    : M (float * float) :=
  n <- MustSize0 (Data item) ;;
  let size := float64_of_Z n in
  bImages <- MustTo (Data item) d true ;;
  bLabels <- MustTo (Label item) d true ;;
  logits <- ForwardT m bImages false ;;
  acc <- AccuracyForLogits rt logits bLabels ;;
  match Values acc with
  | [] => panic
  | v :: _ =>
      let sumAccuracy := (sumAccuracy + v * size)%float in
      let sampleCount := (sampleCount + size)%float in
      MustDrop bImages ;;
      MustDrop bLabels ;;
      MustDrop acc ;;
      ret (sumAccuracy, sampleCount)
  end.

(** Lines 70-88: [for { item, ok := iter2.Next(); if !ok { break }; ... }].
    The loop has no bound of its own; [fuel] bounds the iterations. *)
Fixpoint BatchAccuracyForLogits_loop (fuel : nat) (rt : Runtime) (m : ModuleT)
    (d : gotch.Device) (iter2 : Iter2) (sumAccuracy sampleCount : float)
    : M (float * float) :=
  match fuel with
  | O => fun _ => OutOfFuel
  | S fuel' =>
      r <- Iter2_Next iter2 ;;
      match r with
      | (None, _) => ret (sumAccuracy, sampleCount)
      | (Some item, iter2') =>
          s <- BatchAccuracyForLogits_body rt m d item sumAccuracy sampleCount ;;
          BatchAccuracyForLogits_loop fuel' rt m d iter2' (fst s) (snd s)
      end
  end.

(** The function up to its [return]: the two running sums. *)
Definition BatchAccuracyForLogits_sums (fuel : nat) (rt : Runtime) (m : ModuleT)
    (xs ys : Tensor) (d : gotch.Device) (batchSize : Z) : M (float * float) :=
  iter2 <- MustNewIter2 xs ys batchSize ;;
  BatchAccuracyForLogits_loop fuel rt m d iter2 0%float 0%float.

Definition BatchAccuracyForLogits (fuel : nat) (rt : Runtime) (m : ModuleT)
    (xs ys : Tensor) (d : gotch.Device) (batchSize : Z) : M float :=
  noGradGuard <- NewNoGradGuard ;;
  defer (NoGradGuard_Drop noGradGuard)
    (s <- BatchAccuracyForLogits_sums fuel rt m xs ys d batchSize ;;
     ret (fst s / snd s)%float).

(** *** [BatchAccuracyForLogitsIdx], lines 96-154 *)

(** Lines 124-144: the part of the loop body after the [break] test. *)
Definition BatchAccuracyForLogitsIdx_body (rt : Runtime) (m : ModuleT)
    (xs : Tensor) (d : gotch.Device) (imagesTs labelsTs : Tensor)
    (start size : Z) (sumAccuracy sampleCount : float) : M (float * float) :=
  let narrowIndex := NewNarrow start (int_add start size) in
  bImages <- Idx imagesTs narrowIndex ;;
  bLabels <- Idx labelsTs narrowIndex ;;
  bImages <- MustTo bImages d true ;;
  bLabels <- MustTo bLabels d true ;;
  logits <- ForwardT m bImages true ;;
  bAccuracy <- AccuracyForLogits rt logits bLabels ;;
  match Values bAccuracy with
  | [] => panic
  | accuVal :: _ =>
      n <- MustSize0 xs ;;
      let bSamples := float64_of_Z n in
      let sumAccuracy := (sumAccuracy + accuVal * bSamples)%float in
      let sampleCount := (sampleCount + bSamples)%float in
      MustDrop bImages ;;
      MustDrop bLabels ;;
      MustDrop bAccuracy ;;
      ret (sumAccuracy, sampleCount)
  end.

(** Lines 115-145: [for i := 0; i < batches; i++].  [trips] is the number of
    iterations the counter [i] still allows. *)
Fixpoint BatchAccuracyForLogitsIdx_loop (trips : nat) (rt : Runtime) (m : ModuleT)
    (xs : Tensor) (d : gotch.Device) (imagesTs labelsTs : Tensor)
    (samples batchSize batchIndex : Z) (sumAccuracy sampleCount : float)
    : M (float * float) :=
  match trips with
  | O => ret (sumAccuracy, sampleCount)
  | S trips' =>
      let start := int_mul batchIndex batchSize in
      let size := batchSize in
      if int_sub samples start <? batchSize
      then ret (sumAccuracy, sampleCount)
      else
        let batchIndex := int_add batchIndex 1 in
        s <- BatchAccuracyForLogitsIdx_body rt m xs d imagesTs labelsTs
               start size sumAccuracy sampleCount ;;
        BatchAccuracyForLogitsIdx_loop trips' rt m xs d imagesTs labelsTs
          samples batchSize batchIndex (fst s) (snd s)
  end.

(** The function up to its [return]: the two running sums. *)
Definition BatchAccuracyForLogitsIdx_sums (rt : Runtime) (m : ModuleT)
    (xs ys : Tensor) (d : gotch.Device) (batchSize : Z) : M (float * float) :=
  NewNoGradGuard ;;
  totalSize <- MustSize0 xs ;;
  let samples := totalSize in
  index <- MustRandperm rt totalSize gotch.Int64 gotch.CPU ;;
  imagesTs <- MustIndexSelect xs 0 index false ;;
  labelsTs <- MustIndexSelect ys 0 index false ;;
  match int_div samples batchSize with
  | None => panic
  | Some batches =>
      s <- BatchAccuracyForLogitsIdx_loop (Z.to_nat batches) rt m xs d
             imagesTs labelsTs samples batchSize 0 0%float 0%float ;;
      MustDrop imagesTs ;;
      MustDrop labelsTs ;;
      ret s
  end.

Definition BatchAccuracyForLogitsIdx (rt : Runtime) (m : ModuleT)
    (xs ys : Tensor) (d : gotch.Device) (batchSize : Z) : M float :=
  s <- BatchAccuracyForLogitsIdx_sums rt m xs ys d batchSize ;;
  ret (fst s / snd s)%float.

(** *** Tensor methods for [Module] and [ModuleT], lines 160-209 *)

Definition Apply (ts : Tensor) (m : Module) : M Tensor := Forward m ts.

Definition ApplyT (ts : Tensor) (m : ModuleT) (train : bool) : M Tensor :=
  ForwardT m ts train.

Definition ModuleOption : Type := unit -> Module.
Definition WithModule (m : Module) : ModuleOption := fun _ => m.

Definition ApplyOpt (ts : Tensor) (opts : list ModuleOption) : M Tensor :=
  match opts with
  | opt :: _ => let m := opt tt in Forward m ts
  | [] => MustShallowClone ts
  end.

Definition ModuleTOption : Type := unit -> ModuleT.
Definition WithModuleT (m : ModuleT) : ModuleTOption := fun _ => m.

Definition ApplyOptT (ts : Tensor) (train : bool) (opts : list ModuleTOption)
    : M Tensor :=
  match opts with
  | opt :: _ => let m := opt tt in ForwardT m ts train
  | [] => MustShallowClone ts
  end.

(** *** Reading the call log *)

(** The batches a run pushed through the module, and the mode of each
    forward pass. *)
Definition forward_inputs (cs : list call) : list value :=
  omap (fun c => match c with
                 | CallForwardT xs _ _ => Some (content xs)
                 | _ => None
                 end) cs.

Definition forward_modes (cs : list call) : list bool :=
  omap (fun c => match c with
                 | CallForwardT _ train _ => Some train
                 | _ => None
                 end) cs.

(** The label batches a run handed to the accuracy primitive. *)
Definition accuracy_targets (cs : list call) : list value :=
  omap (fun c => match c with
                 | CallAccuracyForLogits _ targets _ => Some (content targets)
                 | _ => None
                 end) cs.

(** The rows of a batch. *)
Definition batch_rows (v : value) : list value :=
  match v with Rows rs => rs | _ => [] end.

(** A forward pass in evaluation mode, or any other call. *)
Definition eval_mode_call (c : call) : Prop :=
  match c with
  | CallForwardT _ train _ => train = false
  | _ => True
  end.

Definition any_call (c : call) : Prop := True.

(** [w'] differs from [w] by allocations and releases and by logged calls
    that are all [allowed]; the gradient mode is the same. *)
Definition frames (allowed : call -> Prop) (w w' : World) : Prop :=
  grad_enabled w' = grad_enabled w
  /\ exists new, calls w' = calls w ++ new /\ Forall allowed new.

(** A computation keeps the frame on the world it ends in, whether it
    returns or panics; it runs out of fuel only if [may_run_out]. *)
Definition keeps_frame (allowed : call -> Prop) (may_run_out : bool) {A}
    (c : M A) : Prop :=
  forall w, match c w with
            | Ret _ w' | Panicked w' => frames allowed w w'
            | OutOfFuel => may_run_out = true
            end.

(** *** The batches and sums the spec speaks of *)

(** Batch [k] of size [B]: the rows [[k*B, k*B+B)]. *)
Definition chunk (B k : nat) (rows : list value) : list value :=
  take B (drop (k * B) rows).

(** The rows at the positions [ps], in that order. *)
Definition rows_at (ps : list nat) (rows : list value) : list value :=
  omap (fun p => rows !! p) ps.

(** The accuracy value of batch [k] of the data rows [xrows] and the label
    rows [yrows] under the module [m]. *)
Definition batch_accuracy (rt : Runtime) (m : ModuleT) (train : bool) (B : nat)
    (xrows yrows : list value) (k : nat) : float :=
  accuracy_kernel rt (forwardT m (Rows (chunk B k xrows)) train)
                     (Rows (chunk B k yrows)).

(** Running sums that add, for each batch accuracy of [accs], the accuracy
    times [weight] to the first sum and [weight] to the second. *)
Definition weighted_sums (weight : float) (accs : list float)
    (init : float * float) : float * float :=
  fold_left (fun s a => ((fst s + a * weight)%float, (snd s + weight)%float))
            accs init.

(** The calls [new] are those of the batches [k, k+1, ..., k+r-1] of size
    [B]: one forward pass per batch on its data rows, in the mode [train],
    and one accuracy call per batch on its label rows. *)
Definition logged_batches (new : list call) (train : bool) (B : nat)
    (xrows yrows : list value) (k r : nat) : Prop :=
  forward_inputs new = map (fun j => Rows (chunk B j xrows)) (seq k r)
  /\ forward_modes new = repeat train r
  /\ accuracy_targets new = map (fun j => Rows (chunk B j yrows)) (seq k r).


(** A run reports an error when it ends in a panic rather than a value. *)
Definition reports_error {A} (o : outcome A) : Prop :=
  match o with
  | Panicked _ => True
  | _ => False
  end.

(** A forward pass in training mode, or any other call. *)
Definition train_mode_call (c : call) : Prop :=
  match c with
  | CallForwardT _ train _ => train = true
  | _ => True
  end.

(** Every live resource was handed out by the allocator: its address is
    below the next one. *)
Definition wf_world (w : World) : Prop :=
  forall h : handle, h ∈ live w -> (h < next_handle w)%positive.

(** The resources behind the results of the forward passes of a log. *)
Definition forward_results (cs : list call) : list handle :=
  omap (fun c => match c with
                 | CallForwardT _ _ retVal => Some (ctensor retVal)
                 | _ => None
                 end) cs.

(** The results of the forward passes of a log that the accuracy primitive
    of [rt] has left live. *)
Definition kept_results (rt : Runtime) (cs : list call) : list handle :=
  if accuracy_consumes rt then [] else forward_results cs.

(** From [w] to [w'] nothing that was live is released, and the resources
    [hs], allocated in between and distinct, are live in addition. *)
Definition leaked (w w' : World) (hs : list handle) : Prop :=
  live w' = live w ∪ list_to_set hs
  /\ NoDup hs
  /\ Forall (fun h => (next_handle w <= h)%positive
                      /\ (h < next_handle w')%positive) hs
  /\ (next_handle w <= next_handle w')%positive.

(** [r] is a copy of [ts] that owns a resource of its own: the same
    contents behind a resource allocated for it. *)
Definition materializing_copy (w w' : World) (ts r : Tensor) : Prop :=
  content r = content ts
  /\ ctensor r <> ctensor ts
  /\ (ctensor r ∉ live w) /\ (ctensor r ∈ live w').

End tensor.

(* ===================================================================== *)
(** ** Small inputs on which the embedding is run *)
(* ===================================================================== *)

Module demo.
Import GoNum tensor.

(** A metric in the manner of the runtime's: the share of rows whose
    predicted class is the target class. *)
Fixpoint count_matches (ps ts : list value) : Z :=
  match ps, ts with
  | Int p :: ps', Int t :: ts' =>
      (if p =? t then 1 else 0) + count_matches ps' ts'
  | _, _ => 0
  end.

Definition share_of_matches (logits targets : value) : float :=
  (float64_of_Z (count_matches (batch_rows logits) (batch_rows targets))
   / float64_of_Z (Z.of_nat (length (batch_rows logits))))%float.

(** A runtime whose permutation of [[0, n)] is the reversal and whose
    accuracy primitive consumes the logits; and one that differs in leaving
    the logits live. *)
Definition reversing_runtime : Runtime :=
  mkRuntime share_of_matches (fun n => rev (seq 0 n)) true.

Definition keeping_runtime : Runtime :=
  mkRuntime share_of_matches (fun n => rev (seq 0 n)) false.

(** A module that predicts the class its input row names. *)
Definition echo_module : ModuleT := mkModuleT (fun v _ => v).

(** Gradient tracking on, two live Handles (the data and the labels). *)
Definition world0 : World :=
  mkWorld true {[ 1%positive; 2%positive ]} 3%positive [].

(** Four samples; the last label disagrees with what [echo_module] predicts. *)
Definition xs4 : Tensor :=
  mkTensor 1%positive gotch.CPU (Rows [Int 0; Int 1; Int 2; Int 3]).
Definition ys4 : Tensor :=
  mkTensor 2%positive gotch.CPU (Rows [Int 0; Int 1; Int 2; Int 0]).

(** Ten and nine samples, all labelled as predicted. *)
Definition rows_upto (n : nat) : value :=
  Rows (map (fun i => Int (Z.of_nat i)) (seq 0 n)).
Definition xs10 : Tensor := mkTensor 1%positive gotch.CPU (rows_upto 10).
Definition ys10 : Tensor := mkTensor 2%positive gotch.CPU (rows_upto 10).
Definition xs9 : Tensor := mkTensor 1%positive gotch.CPU (rows_upto 9).
Definition ys9 : Tensor := mkTensor 2%positive gotch.CPU (rows_upto 9).

(** No sample at all. *)
Definition xs0 : Tensor := mkTensor 1%positive gotch.CPU (Rows []).
Definition ys0 : Tensor := mkTensor 2%positive gotch.CPU (Rows []).


(** Normal draws [0.5, -1, -1, ...] and a uniform sampler that returns the
    lower bound, which lies in [[lo, hi)]. *)
Definition draws (i : nat) : float :=
  match i with O => 0.5%float | _ => (-1)%float end.
Definition lowest (lo hi : float) (i : nat) : float := lo.

(** A shape of rank [n] with every dimension [1]. *)
Definition ones (n : nat) : list Z := repeat 1 n.

End demo.

(** Inputs for the initialisers and the layer constructors. *)
Module demo_nn.
Import GoNum nn.

(** An empty variable store on the CPU. *)
Definition store0 : Path := mkPath gotch.CPU [].

(** The default configuration with the uniform sampler [demo.lowest], and
    the same with a group count of zero. *)
Definition default_cfg : ConvTransposeConfig :=
  DefaultConvTranspose1DConfig demo.lowest.

Definition zero_groups_cfg : ConvTransposeConfig :=
  mkConvTransposeConfig [1] [0] [0] [1] 0 true
    (NewKaimingUniformInit demo.lowest) (constInit_Init (NewConstInit 0)).

End demo_nn.

(* ===================================================================== *)
(** * Proofs *)
(* ===================================================================== *)

(** ** Go's integers inside their range *)

Module GoNumFacts.
Import GoNum.

Lemma wrap_int64_id (z : Z) : in_int64 z -> wrap_int64 z = z.
Proof.
  unfold in_int64, wrap_int64. intros Hz.
  rewrite Z.mod_small by lia. lia.
Qed.

Lemma wrap_uint64_id (z : Z) : 0 <= z < 2 ^ 64 -> wrap_uint64 z = z.
Proof. unfold wrap_uint64. intros Hz. now rewrite Z.mod_small. Qed.

Lemma int_add_id (a b : Z) : in_int64 (a + b) -> int_add a b = a + b.
Proof. apply wrap_int64_id. Qed.

Lemma int_sub_id (a b : Z) : in_int64 (a - b) -> int_sub a b = a - b.
Proof. apply wrap_int64_id. Qed.

Lemma int_mul_id (a b : Z) : in_int64 (a * b) -> int_mul a b = a * b.
Proof. apply wrap_int64_id. Qed.

(** Division of a length by a positive batch size is the floor. *)
Lemma int_div_nat (n b : nat) :
  (0 < b)%nat -> Z.of_nat n < 2 ^ 63 ->
  int_div (Z.of_nat n) (Z.of_nat b) = Some (Z.of_nat (n / b)).
Proof.
  intros Hb Hn. unfold int_div.
  destruct (Z.eqb_spec (Z.of_nat b) 0) as [E|_]; [lia|].
  rewrite Z.quot_div_nonneg by lia.
  rewrite <- Nat2Z.inj_div.
  rewrite wrap_int64_id; [reflexivity|].
  unfold in_int64.
  assert (n / b <= n)%nat by (apply Nat.Div0.div_le_upper_bound; nia).
  lia.
Qed.

Lemma float_neq_neq (x y : float) : float_neq x y -> x <> y.
Proof. intros H E. apply H. now rewrite E. Qed.

End GoNumFacts.

(** ** [nn/init.go] *)

Module nn_proofs.
Import GoNum GoNumFacts nn demo.

Lemma factorial_0 : factorial 0 = 1.
Proof. reflexivity. Qed.

(** Up to [20!], which is below [2^64], the recursion computes the
    factorial. *)
Lemma factorial_agrees_upto_20 (n : nat) :
  (n <= 20)%nat -> factorial (Z.of_nat n) = factorial_spec n.
Proof.
  intros Hn.
  do 21 (destruct n as [|n]; [vm_compute; reflexivity|]).
  lia.
Qed.

(** Hence for ranks 1 to 21 the bound is the spec's bound, and for rank 1
    it is 1. *)
Lemma kaiming_bound_agrees (dims : list Z) :
  (1 <= length dims <= 21)%nat ->
  kaiming_bound dims = kaiming_bound_spec dims.
Proof.
  intros Hlen. unfold kaiming_bound, kaiming_bound_spec.
  assert (E : wrap_uint64 (int_sub (Z.of_nat (length dims)) 1)
              = Z.of_nat (length dims - 1)).
  { rewrite int_sub_id by (unfold in_int64; lia).
    rewrite wrap_uint64_id by lia. lia. }
  rewrite E, factorial_agrees_upto_20 by lia. reflexivity.
Qed.

Lemma kaiming_bound_rank_1 (n : Z) : kaiming_bound [n] = 1%float.
Proof. vm_compute. reflexivity. Qed.

(** Every element [randnInit] writes is the draw scaled by [mean] and
    shifted by [stdev]. *)
Lemma randn_fill_lookup (NormFloat64 : nat -> float) (r : randnInit)
    (data : list float) (i : nat) (x : float) :
  randn_fill NormFloat64 r data !! i = Some x ->
  x = (NormFloat64 i * mean r + stdev r)%float.
Proof.
  unfold randn_fill. rewrite list_lookup_imap.
  destruct (data !! i); simpl; congruence.
Qed.

Lemma randn_fill_length (NormFloat64 : nat -> float) (r : randnInit)
    (data : list float) :
  length (randn_fill NormFloat64 r data) = length data.
Proof. unfold randn_fill. apply length_imap. Qed.

(** For ranks 1 to 21, a sampler that keeps to its bounds writes every
    element inside the spec's interval. *)
Lemma kaiming_elements_within_bound (uniform_draw : float -> float -> nat -> float)
    (dims : list Z) (device : gotch.Device) (t : Tensor) :
  (1 <= length dims <= 21)%nat ->
  (forall lo hi i, PrimFloat.leb lo hi = true ->
                   within lo hi (uniform_draw lo hi i) = true) ->
  kaimingUniformInit_InitTensor uniform_draw dims device = Ok t ->
  Forall (fun x => within (- kaiming_bound_spec dims) (kaiming_bound_spec dims) x
                   = true) (elems t).
Proof.
  intros Hlen Hdraw Hrun. unfold kaimingUniformInit_InitTensor in Hrun.
  rewrite kaiming_bound_agrees in Hrun by exact Hlen.
  destruct (MustZeros dims device) as [z| |]; try discriminate.
  injection Hrun as <-. cbn [elems Uniform_].
  apply Forall_forall. intros x Hx.
  apply elem_of_lookup_imap in Hx as (i & y & -> & _).
  apply Hdraw. unfold kaiming_bound_spec.
  destruct (length dims) as [|n]; [lia|].
  do 21 (destruct n as [|n]; [vm_compute; reflexivity|]). lia.
Qed.

(** C4 (the code departs from the claim): with mean 2, stdev 3 and the draws
    0.5 and -1, [InitTensor] and [Set] both write 0.5*2+3 = 4 and
    -1*2+3 = 1, where [mean + stdev * z] is 3.5 and -1: the draw is scaled
    by the mean and shifted by the standard deviation. *)
Theorem C4_randn_scales_by_mean_shifts_by_stdev :
  randnInit_InitTensor draws (NewRandnInit 2 3) [2] gotch.CPU
    = Ok (mkTensor [2] [4%float; 1%float])
  /\ randnInit_Set draws (NewRandnInit 2 3) (mkTensor [2] [0%float; 0%float])
    = Ok (mkTensor [2] [4%float; 1%float])
  /\ map (normal_sample_spec 2 3) [draws 0; draws 1] = [3.5%float; (-1)%float]
  /\ float_neq 4 3.5 /\ float_neq 1 (-1).
Proof.
  repeat split; try (vm_compute; reflexivity);
    unfold float_neq; vm_compute; discriminate.
Qed.

(** C7 (the code departs from the claim): [factorial] is [uint64]
    arithmetic, so [factorial 21] is [21!] modulo [2^64].  At rank 22 the
    bound the code uses is larger than [sqrt(1/21!)], and a sampler that
    returns its lower bound writes an element outside the claimed interval;
    at rank 67 the wrapped factorial is 0 and the bound is infinite. *)
Theorem C7_kaiming_factorial_wraps :
  factorial 21 = 14197454024290336768
  /\ factorial_spec 21 = 51090942171709440000
  /\ kaimingUniformInit_InitTensor lowest (ones 22) gotch.CPU
     = Ok (mkTensor (ones 22) [(- kaiming_bound (ones 22))%float])
  /\ within (- kaiming_bound_spec (ones 22)) (kaiming_bound_spec (ones 22))
            (- kaiming_bound (ones 22)) = false
  /\ factorial 66 = 0
  /\ kaiming_bound (ones 67) = infinity.
Proof.
  repeat split; vm_compute; reflexivity.
Qed.

End nn_proofs.

(** ** [tensor/module.go] *)

Module tensor_proofs.
Import GoNum GoNumFacts tensor demo.
Local Open Scope go_scope.

(** *** What every run leaves untouched *)

Section Frame.

Variable allowed : call -> Prop.
Variable fuelled : bool.

Lemma frames_refl (w : World) : frames allowed w w.
Proof.
  split; [reflexivity|].
  exists []. split; [now rewrite app_nil_r | constructor].
Qed.

Lemma frames_trans (w1 w2 w3 : World) :
  frames allowed w1 w2 -> frames allowed w2 w3 -> frames allowed w1 w3.
Proof.
  intros [Hg1 (n1 & Hc1 & Ha1)] [Hg2 (n2 & Hc2 & Ha2)].
  split; [congruence|].
  exists (n1 ++ n2). split.
  - rewrite Hc2, Hc1. now rewrite app_assoc.
  - apply Forall_app. now split.
Qed.

(** A step that leaves the mode and the log as they are. *)
Lemma frames_silent (w w' : World) :
  grad_enabled w' = grad_enabled w -> calls w' = calls w -> frames allowed w w'.
Proof.
  intros Hg Hc. split; [exact Hg|].
  exists []. split; [now rewrite app_nil_r | constructor].
Qed.

Lemma keeps_ret {A} (a : A) : keeps_frame allowed fuelled (ret a).
Proof. intros w. apply frames_refl. Qed.

Lemma keeps_panic {A} : keeps_frame allowed fuelled (@panic A).
Proof. intros w. apply frames_refl. Qed.

Lemma keeps_bind {A B} (c : M A) (k : A -> M B) :
  keeps_frame allowed fuelled c ->
  (forall a, keeps_frame allowed fuelled (k a)) ->
  keeps_frame allowed fuelled (bind c k).
Proof.
  intros Hc Hk w. unfold bind. specialize (Hc w).
  destruct (c w) as [a w1|w1|]; auto.
  specialize (Hk a w1).
  destruct (k a w1) as [b w2|w2|]; auto; eapply frames_trans; eauto.
Qed.

Lemma keeps_alloc (d : gotch.Device) (v : value) :
  keeps_frame allowed fuelled (alloc d v).
Proof. intros w. now apply frames_silent. Qed.

Lemma keeps_MustDrop (ts : Tensor) : keeps_frame allowed fuelled (MustDrop ts).
Proof. intros w. now apply frames_silent. Qed.

Lemma keeps_log_call (c : call) :
  allowed c -> keeps_frame allowed fuelled (log_call c).
Proof.
  intros Hc w. split; [reflexivity|].
  exists [c]. split; [reflexivity | now constructor].
Qed.

Lemma keeps_MustSize0 (ts : Tensor) : keeps_frame allowed fuelled (MustSize0 ts).
Proof.
  unfold MustSize0. destruct (content ts); auto using @keeps_ret, @keeps_panic.
Qed.

Lemma keeps_release_if (del : bool) (ts : Tensor) :
  keeps_frame allowed fuelled (if del then MustDrop ts else ret tt).
Proof. destruct del; [apply keeps_MustDrop | apply keeps_ret]. Qed.

Lemma keeps_MustTo (ts : Tensor) (d : gotch.Device) (del : bool) :
  keeps_frame allowed fuelled (MustTo ts d del).
Proof.
  unfold MustTo. apply keeps_bind; [apply keeps_alloc|]. intros moved.
  apply keeps_bind; [apply keeps_release_if | intros; apply keeps_ret].
Qed.

Lemma keeps_MustNarrow (ts : Tensor) (start len : Z) :
  keeps_frame allowed fuelled (MustNarrow ts start len).
Proof.
  unfold MustNarrow. destruct (content ts); try apply keeps_panic.
  destruct (narrow_rows start len rs); [apply keeps_alloc | apply keeps_panic].
Qed.

Lemma keeps_MustIndexSelect (ts : Tensor) (dim : Z) (index : Tensor) (del : bool) :
  keeps_frame allowed fuelled (MustIndexSelect ts dim index del).
Proof.
  unfold MustIndexSelect.
  destruct (content ts); try apply keeps_panic.
  destruct (index_positions (content index)); try apply keeps_panic.
  destruct (mapM _ _); try apply keeps_panic.
  apply keeps_bind; [apply keeps_alloc|]. intros out.
  apply keeps_bind; [apply keeps_release_if | intros; apply keeps_ret].
Qed.

Lemma keeps_AccuracyForLogits (rt : Runtime) (logits targets : Tensor) :
  (forall retVal, allowed (CallAccuracyForLogits logits targets retVal)) ->
  keeps_frame allowed fuelled (AccuracyForLogits rt logits targets).
Proof.
  intros Ha. unfold AccuracyForLogits.
  apply keeps_bind; [apply keeps_alloc|]. intros r.
  apply keeps_bind; [apply keeps_release_if | intros _].
  apply keeps_bind; [apply keeps_log_call, Ha | intros; apply keeps_ret].
Qed.

Lemma keeps_ForwardT (m : ModuleT) (xs : Tensor) (train : bool) :
  (forall retVal, allowed (CallForwardT xs train retVal)) ->
  keeps_frame allowed fuelled (ForwardT m xs train).
Proof.
  intros Ha. unfold ForwardT.
  apply keeps_bind; [apply keeps_alloc|]. intros r.
  apply keeps_bind; [apply keeps_log_call, Ha | intros; apply keeps_ret].
Qed.

Lemma keeps_MustRandperm (rt : Runtime) (n : Z) (k : gotch.DType)
    (d : gotch.Device) :
  keeps_frame allowed fuelled (MustRandperm rt n k d).
Proof. apply keeps_alloc. Qed.

(** A guarded block restores the mode it found: with its guard around it,
    a block that keeps the frame is a block that keeps the frame. *)
Lemma keeps_guarded {A} (body : M A) :
  keeps_frame allowed fuelled body ->
  keeps_frame allowed fuelled
    (g <- NewNoGradGuard ;; defer (NoGradGuard_Drop g) body).
Proof.
  intros Hb w.
  unfold bind, NewNoGradGuard, MustGradSetEnabled, defer, bind, ret. cbn.
  specialize (Hb (mkWorld false (live w) (next_handle w) (calls w))).
  destruct (body _) as [a w1|w1|]; cbn; auto;
    destruct Hb as [_ Hlog]; split; auto.
Qed.

(** A guard that is acquired and never dropped leaves the mode off. *)
Lemma unguarded_leaves_grad_off {A} (rest : NoGradGuard -> M A) :
  (forall g, keeps_frame allowed false (rest g)) ->
  forall w, match bind NewNoGradGuard rest w with
            | Ret _ w' | Panicked w' => grad_enabled w' = false
            | OutOfFuel => False
            end.
Proof.
  intros Hr w.
  unfold bind, NewNoGradGuard, MustGradSetEnabled, bind, ret. cbn.
  specialize (Hr (mkNoGradGuard (grad_enabled w))
                 (mkWorld false (live w) (next_handle w) (calls w))).
  destruct (rest _ _) as [a w1|w1|]; try discriminate; now destruct Hr.
Qed.

Lemma keeps_MustNewIter2 (xs ys : Tensor) (batchSize : Z) :
  keeps_frame allowed fuelled (MustNewIter2 xs ys batchSize).
Proof.
  unfold MustNewIter2.
  apply keeps_bind; [apply keeps_MustSize0|]. intros n.
  apply keeps_bind; [apply keeps_MustSize0|]. intros n'.
  destruct (n =? n'); [apply keeps_ret | apply keeps_panic].
Qed.

Lemma keeps_Iter2_Next (it : Iter2) :
  keeps_frame allowed fuelled (Iter2_Next it).
Proof.
  unfold Iter2_Next.
  destruct (_ <? _); [apply keeps_ret|].
  apply keeps_bind; [apply keeps_MustNarrow|]. intros data.
  apply keeps_bind; [apply keeps_MustNarrow|]. intros label.
  apply keeps_ret.
Qed.

End Frame.

Create HintDb frame.
#[local] Hint Resolve keeps_ret keeps_panic keeps_alloc keeps_MustDrop
  keeps_MustSize0 keeps_MustTo keeps_MustNarrow keeps_MustIndexSelect
  keeps_MustNewIter2 keeps_Iter2_Next keeps_release_if keeps_MustRandperm
  : frame.

(** Splits a sequence of calls into its steps. *)
Ltac frame_steps :=
  repeat first
    [ apply keeps_bind; [solve [auto with frame] | intros ?]
    | solve [auto with frame] ].

(** The body of [BatchAccuracyForLogits] logs one forward pass in evaluation
    mode and one accuracy call. *)
Lemma keeps_BatchAccuracyForLogits_body (fuelled : bool) (rt : Runtime)
    (m : ModuleT) (d : gotch.Device) (item : Iter2Item) (s c : float) :
  keeps_frame eval_mode_call fuelled
    (BatchAccuracyForLogits_body rt m d item s c).
Proof.
  unfold BatchAccuracyForLogits_body. frame_steps.
  apply keeps_bind; [apply keeps_ForwardT; reflexivity | intros logits].
  apply keeps_bind; [apply keeps_AccuracyForLogits; intros; exact I | intros acc].
  destruct (Values acc); frame_steps.
Qed.

Lemma keeps_BatchAccuracyForLogits_loop (fuel : nat) (rt : Runtime)
    (m : ModuleT) (d : gotch.Device) (it : Iter2) (s c : float) :
  keeps_frame eval_mode_call true
    (BatchAccuracyForLogits_loop fuel rt m d it s c).
Proof.
  revert it s c. induction fuel as [|fuel IH]; intros it s c.
  - intros w. reflexivity.
  - simpl. apply keeps_bind; [auto with frame|]. intros [[item|] it'].
    + apply keeps_bind; [apply keeps_BatchAccuracyForLogits_body|].
      intros s'. apply IH.
    + apply keeps_ret.
Qed.

Lemma keeps_BatchAccuracyForLogits_sums (fuel : nat) (rt : Runtime)
    (m : ModuleT) (xs ys : Tensor) (d : gotch.Device) (batchSize : Z) :
  keeps_frame eval_mode_call true
    (BatchAccuracyForLogits_sums fuel rt m xs ys d batchSize).
Proof.
  unfold BatchAccuracyForLogits_sums.
  apply keeps_bind; [auto with frame|]. intros it.
  apply keeps_BatchAccuracyForLogits_loop.
Qed.

(** The index-based evaluator never runs out: its loop is bounded. *)
Lemma keeps_BatchAccuracyForLogitsIdx_body (rt : Runtime) (m : ModuleT)
    (xs : Tensor) (d : gotch.Device) (imagesTs labelsTs : Tensor)
    (start size : Z) (s c : float) :
  keeps_frame any_call false
    (BatchAccuracyForLogitsIdx_body rt m xs d imagesTs labelsTs start size s c).
Proof.
  unfold BatchAccuracyForLogitsIdx_body, Idx. frame_steps.
  apply keeps_bind; [apply keeps_ForwardT; intros; exact I | intros logits].
  apply keeps_bind; [apply keeps_AccuracyForLogits; intros; exact I | intros acc].
  destruct (Values acc); frame_steps.
Qed.

Lemma keeps_BatchAccuracyForLogitsIdx_loop (trips : nat) (rt : Runtime)
    (m : ModuleT) (xs : Tensor) (d : gotch.Device) (imagesTs labelsTs : Tensor)
    (samples batchSize batchIndex : Z) (s c : float) :
  keeps_frame any_call false
    (BatchAccuracyForLogitsIdx_loop trips rt m xs d imagesTs labelsTs
       samples batchSize batchIndex s c).
Proof.
  revert batchIndex s c. induction trips as [|trips IH]; intros batchIndex s c.
  - apply keeps_ret.
  - simpl. destruct (_ <? _); [apply keeps_ret|].
    apply keeps_bind; [apply keeps_BatchAccuracyForLogitsIdx_body|].
    intros s'. apply IH.
Qed.

(** *** The gradient mode and the mode of the forward passes *)

Lemma keeps_BatchAccuracyForLogits (fuel : nat) (rt : Runtime) (m : ModuleT)
    (xs ys : Tensor) (d : gotch.Device) (batchSize : Z) :
  keeps_frame eval_mode_call true
    (BatchAccuracyForLogits fuel rt m xs ys d batchSize).
Proof.
  apply keeps_guarded.
  apply keeps_bind; [apply keeps_BatchAccuracyForLogits_sums|].
  intros s. apply keeps_ret.
Qed.

Lemma BatchAccuracyForLogitsIdx_sums_grad_off (rt : Runtime) (m : ModuleT)
    (xs ys : Tensor) (d : gotch.Device) (batchSize : Z) (w : World) :
  match BatchAccuracyForLogitsIdx_sums rt m xs ys d batchSize w with
  | Ret _ w' | Panicked w' => grad_enabled w' = false
  | OutOfFuel => False
  end.
Proof.
  unfold BatchAccuracyForLogitsIdx_sums.
  apply (unguarded_leaves_grad_off any_call). intros _.
  frame_steps. destruct (int_div _ _); [|apply keeps_panic].
  apply keeps_bind; [apply keeps_BatchAccuracyForLogitsIdx_loop|].
  intros s. frame_steps.
Qed.

(** C3 (the code departs from the claim): [BatchAccuracyForLogits] defers
    the guard's [Drop] and ends, returning or panicking, in the
    gradient-tracking mode it was called in; [BatchAccuracyForLogitsIdx]
    discards its guard and always ends with gradient tracking off, whatever
    the mode before the call. *)
Theorem C3_idx_evaluator_leaves_grad_off :
  (forall fuel rt m xs ys d batchSize w,
     match BatchAccuracyForLogits fuel rt m xs ys d batchSize w with
     | Ret _ w' | Panicked w' => grad_enabled w' = grad_enabled w
     | OutOfFuel => True
     end)
  /\ (forall rt m xs ys d batchSize w,
     match BatchAccuracyForLogitsIdx rt m xs ys d batchSize w with
     | Ret _ w' | Panicked w' => grad_enabled w' = false
     | OutOfFuel => False
     end).
Proof.
  split.
  - intros fuel rt m xs ys d batchSize w.
    pose proof (keeps_BatchAccuracyForLogits fuel rt m xs ys d batchSize w) as H.
    destruct (BatchAccuracyForLogits _ _ _ _ _ _ _ _); auto; apply H.
  - intros rt m xs ys d batchSize w.
    pose proof (BatchAccuracyForLogitsIdx_sums_grad_off rt m xs ys d batchSize w) as H.
    unfold BatchAccuracyForLogitsIdx, bind.
    destruct (BatchAccuracyForLogitsIdx_sums _ _ _ _ _ _ _); auto.
Qed.

(** *** Batches as chunks of rows *)

Lemma chunk_length (B k : nat) (rows : list value) :
  (k * B + B <= length rows)%nat -> length (chunk B k rows) = B.
Proof.
  intros H. unfold chunk. rewrite length_take, length_drop. lia.
Qed.


Lemma narrow_rows_chunk (B k : nat) (rows : list value) :
  (k * B + B <= length rows)%nat ->
  narrow_rows (Z.of_nat (k * B)) (Z.of_nat B) rows = Some (chunk B k rows).
Proof.
  intros H. unfold narrow_rows, chunk.
  rewrite !Nat2Z.id.
  destruct (Z.leb_spec 0 (Z.of_nat (k * B))); [|lia].
  destruct (Z.leb_spec 0 (Z.of_nat B)); [|lia].
  destruct (Z.leb_spec (Z.of_nat (k * B) + Z.of_nat B) (Z.of_nat (length rows)));
    [reflexivity | lia].
Qed.

(** The first row a batch starts at, as Go computes it. *)
Lemma start_of_batch (B k N : nat) :
  (k * B <= N)%nat -> Z.of_nat N < 2 ^ 63 ->
  int_mul (Z.of_nat k) (Z.of_nat B) = Z.of_nat (k * B).
Proof.
  intros Hk HN. rewrite int_mul_id; [lia|]. unfold in_int64. nia.
Qed.

Lemma rows_at_mapM (ps : list nat) (rows : list value) :
  Forall (fun p => (p < length rows)%nat) ps ->
  mapM (fun p => rows !! p) ps = Some (rows_at ps rows).
Proof.
  induction 1 as [|p ps Hp _ IH]; [reflexivity|].
  apply lookup_lt_is_Some_2 in Hp as [x Hx].
  unfold rows_at in *. cbn. rewrite Hx. cbn. rewrite IH. reflexivity.
Qed.

Lemma rows_at_length (ps : list nat) (rows : list value) :
  Forall (fun p => (p < length rows)%nat) ps ->
  length (rows_at ps rows) = length ps.
Proof.
  intros H. apply rows_at_mapM in H. apply length_mapM in H. auto.
Qed.


(** A permutation of [[0, n)] names rows of a tensor with [n] rows. *)
Lemma permutation_in_range (ps : list nat) (n : nat) :
  ps ≡ₚ seq 0 n -> Forall (fun p => (p < n)%nat) ps.
Proof.
  intros H. apply Forall_forall. intros p Hp.
  rewrite H in Hp. apply elem_of_seq in Hp. lia.
Qed.

Lemma index_positions_of_nats (ps : list nat) :
  index_positions (Rows (map (fun i => Int (Z.of_nat i)) ps)) = Some ps.
Proof.
  unfold index_positions.
  induction ps as [|p ps IH]; [reflexivity|].
  cbn. destruct (Z.leb_spec 0 (Z.of_nat p)); [|lia].
  cbn. rewrite IH. cbn. now rewrite Nat2Z.id.
Qed.

(** *** Reading the log of consecutive batches *)

Lemma forward_inputs_app (a b : list call) :
  forward_inputs (a ++ b) = forward_inputs a ++ forward_inputs b.
Proof. apply omap_app. Qed.

Lemma forward_modes_app (a b : list call) :
  forward_modes (a ++ b) = forward_modes a ++ forward_modes b.
Proof. apply omap_app. Qed.

Lemma accuracy_targets_app (a b : list call) :
  accuracy_targets (a ++ b) = accuracy_targets a ++ accuracy_targets b.
Proof. apply omap_app. Qed.

Lemma logged_batches_nil (train : bool) (B : nat) (xrows yrows : list value)
    (k : nat) :
  logged_batches [] train B xrows yrows k 0.
Proof. repeat split. Qed.

Lemma logged_batches_cons (bI bL lg ac : Tensor) (rest : list call)
    (train : bool) (B : nat) (xrows yrows : list value) (k r : nat) :
  content bI = Rows (chunk B k xrows) ->
  content bL = Rows (chunk B k yrows) ->
  logged_batches rest train B xrows yrows (S k) r ->
  logged_batches
    ([CallForwardT bI train lg; CallAccuracyForLogits lg bL ac] ++ rest)
    train B xrows yrows k (S r).
Proof.
  intros HI HL (Hf & Hm & Ha). unfold logged_batches.
  rewrite forward_inputs_app, forward_modes_app, accuracy_targets_app.
  rewrite Hf, Hm, Ha. cbn. rewrite HI, HL. auto.
Qed.

Lemma weighted_sums_cons (weight a : float) (accs : list float) (s c : float) :
  weighted_sums weight (a :: accs) (s, c)
  = weighted_sums weight accs ((s + a * weight)%float, (c + weight)%float).
Proof. reflexivity. Qed.

(** *** Single steps *)

Lemma bind_run {A B} (c : M A) (k : A -> M B) (w w' : World) (a : A) :
  c w = Ret a w' -> bind c k w = k a w'.
Proof. intros H. unfold bind. now rewrite H. Qed.

Lemma NewNoGradGuard_run (w : World) :
  NewNoGradGuard w
  = Ret (mkNoGradGuard (grad_enabled w))
        (mkWorld false (live w) (next_handle w) (calls w)).
Proof. reflexivity. Qed.

Lemma MustSize0_run (ts : Tensor) (rs : list value) (w : World) :
  content ts = Rows rs -> MustSize0 ts w = Ret (Z.of_nat (length rs)) w.
Proof. intros H. unfold MustSize0. now rewrite H. Qed.

Lemma MustRandperm_run (rt : Runtime) (n : Z) (k : gotch.DType)
    (d : gotch.Device) (w : World) :
  MustRandperm rt n k d w
  = Ret (mkTensor (next_handle w) d
           (Rows (map (fun i => Int (Z.of_nat i)) (randperm rt (Z.to_nat n)))))
        (allocated w).
Proof. reflexivity. Qed.

Lemma MustIndexSelect_run (ts index : Tensor) (rs : list value) (ps : list nat)
    (w : World) :
  content ts = Rows rs ->
  index_positions (content index) = Some ps ->
  Forall (fun p => (p < length rs)%nat) ps ->
  MustIndexSelect ts 0 index false w
  = Ret (mkTensor (next_handle w) (device ts) (Rows (rows_at ps rs)))
        (allocated w).
Proof.
  intros Hc Hp Hr. unfold MustIndexSelect.
  rewrite Hc, Hp, rows_at_mapM by exact Hr. reflexivity.
Qed.

(** *** How many batches fit *)

Lemma batch_fits (B N k : nat) :
  (0 < B)%nat -> (k < N / B)%nat -> (k * B + B <= N)%nat.
Proof.
  intros HB Hk. pose proof (Nat.Div0.mul_div_le N B). nia.
Qed.

Lemma no_batch_left (B N : nat) :
  (0 < B)%nat -> (N / B * B <= N)%nat /\ (N < N / B * B + B)%nat.
Proof.
  intros HB. pose proof (Nat.div_mod_eq N B).
  pose proof (Nat.mod_upper_bound N B). nia.
Qed.

(** *** Running the iterator and the loop of [BatchAccuracyForLogits] *)

Section Runs.

Variable rt : Runtime.
Variable m : ModuleT.
Variable d : gotch.Device.

Lemma Iter2_Next_some (xs ys : Tensor) (k B N : nat) (xrows yrows : list value)
    (w : World) :
  content xs = Rows xrows -> content ys = Rows yrows ->
  length xrows = N -> length yrows = N ->
  (0 < B)%nat -> (k * B + B <= N)%nat -> Z.of_nat N < 2 ^ 63 ->
  Iter2_Next (mkIter2 xs ys (Z.of_nat k) (Z.of_nat B) (Z.of_nat N)) w
  = Ret (Some (mkIter2Item
                 (mkTensor (next_handle w) (device xs) (Rows (chunk B k xrows)))
                 (mkTensor (Pos.succ (next_handle w)) (device ys)
                           (Rows (chunk B k yrows)))),
         mkIter2 xs ys (Z.of_nat (S k)) (Z.of_nat B) (Z.of_nat N))
        (allocated (allocated w)).
Proof.
  intros Hx Hy Lx Ly HB Hfit HN. unfold Iter2_Next. cbn [it_batchIndex it_batchSize
    it_totalSize it_xs it_ys].
  rewrite (start_of_batch B k N) by lia.
  rewrite int_sub_id by (unfold in_int64; lia).
  destruct (Z.ltb_spec (Z.of_nat N - Z.of_nat (k * B)) (Z.of_nat B)); [lia|].
  unfold bind, MustNarrow. rewrite Hx, Hy.
  rewrite !narrow_rows_chunk by lia. cbn.
  rewrite int_add_id by (unfold in_int64; nia).
  do 3 f_equal. f_equal. lia.
Qed.

Lemma Iter2_Next_none (xs ys : Tensor) (k B N : nat) (w : World) :
  (k * B <= N)%nat -> (N < k * B + B)%nat -> Z.of_nat N < 2 ^ 63 ->
  Iter2_Next (mkIter2 xs ys (Z.of_nat k) (Z.of_nat B) (Z.of_nat N)) w
  = Ret (None, mkIter2 xs ys (Z.of_nat k) (Z.of_nat B) (Z.of_nat N)) w.
Proof.
  intros Hk Hshort HN. unfold Iter2_Next. cbn [it_batchIndex it_batchSize
    it_totalSize it_xs it_ys].
  rewrite (start_of_batch B k N) by lia.
  rewrite int_sub_id by (unfold in_int64; lia).
  destruct (Z.ltb_spec (Z.of_nat N - Z.of_nat (k * B)) (Z.of_nat B)); [|lia].
  reflexivity.
Qed.

(** One pass of the body: the sums grow by the batch accuracy times the
    batch's own row count, and by that row count. *)
Lemma BatchAccuracyForLogits_body_run (item : Iter2Item) (s c : float)
    (w : World) (rs : list value) :
  content (Data item) = Rows rs ->
  exists w' bI bL lg ac,
    BatchAccuracyForLogits_body rt m d item s c w
    = Ret ((s + accuracy_kernel rt (forwardT m (Rows rs) false)
                                   (content (Label item))
               * float64_of_Z (Z.of_nat (length rs)))%float,
           (c + float64_of_Z (Z.of_nat (length rs)))%float) w'
    /\ grad_enabled w' = grad_enabled w
    /\ calls w' = calls w ++ [CallForwardT bI false lg;
                              CallAccuracyForLogits lg bL ac]
    /\ content bI = Rows rs /\ content bL = content (Label item).
Proof.
  intros Hc.
  unfold BatchAccuracyForLogits_body, AccuracyForLogits, bind, MustSize0.
  rewrite Hc.
  destruct (accuracy_consumes rt); cbn; rewrite !Hc; do 5 eexists;
    (split; [reflexivity|]); cbn; rewrite <- app_assoc;
    repeat split; reflexivity.
Qed.

Lemma BatchAccuracyForLogits_loop_run (xs ys : Tensor) (B N : nat)
    (xrows yrows : list value) :
  content xs = Rows xrows -> content ys = Rows yrows ->
  length xrows = N -> length yrows = N ->
  (0 < B)%nat -> Z.of_nat N < 2 ^ 63 ->
  forall (r k fuel : nat) (s c : float) (w : World),
    (k + r = N / B)%nat -> (r < fuel)%nat ->
    exists w' new,
      BatchAccuracyForLogits_loop fuel rt m d
        (mkIter2 xs ys (Z.of_nat k) (Z.of_nat B) (Z.of_nat N)) s c w
      = Ret (weighted_sums (float64_of_Z (Z.of_nat B))
               (map (batch_accuracy rt m false B xrows yrows) (seq k r)) (s, c)) w'
      /\ grad_enabled w' = grad_enabled w
      /\ calls w' = calls w ++ new
      /\ logged_batches new false B xrows yrows k r.
Proof.
  intros Hx Hy Lx Ly HB HN.
  induction r as [|r IH]; intros k fuel s c w Hk Hfuel;
    (destruct fuel as [|fuel]; [lia|]); cbn [BatchAccuracyForLogits_loop];
    unfold bind at 1.
  - destruct (no_batch_left B N HB) as [Hle Hlt].
    rewrite Iter2_Next_none by (try lia; rewrite Nat.add_0_r in Hk; subst k; lia).
    exists w, []. cbn. rewrite app_nil_r.
    repeat split; auto.
  - pose proof (batch_fits B N k HB ltac:(lia)) as Hfit.
    rewrite (Iter2_Next_some xs ys k B N xrows yrows) by assumption.
    unfold bind at 1.
    match goal with |- context [BatchAccuracyForLogits_body rt m d ?it s c ?w1] =>
      destruct (BatchAccuracyForLogits_body_run it s c w1 (chunk B k xrows) eq_refl)
        as (w2 & bI & bL & lg & ac & Hrun & Hg & Hcalls & HbI & HbL)
    end.
    rewrite Hrun. cbn [fst snd Label content] in *.
    rewrite chunk_length in * by lia.
    destruct (IH (S k) fuel
                (s + accuracy_kernel rt (forwardT m (Rows (chunk B k xrows)) false)
                       (Rows (chunk B k yrows))
                     * float64_of_Z (Z.of_nat B))%float
                (c + float64_of_Z (Z.of_nat B))%float
                w2 ltac:(lia) ltac:(lia))
      as (w3 & new & Hloop & Hg3 & Hcalls3 & Hlog).
    exists w3, ([CallForwardT bI false lg; CallAccuracyForLogits lg bL ac] ++ new).
    split; [rewrite Hloop; reflexivity|].
    split; [rewrite Hg3, Hg; reflexivity|].
    split; [rewrite Hcalls3, Hcalls; cbn; now rewrite <- app_assoc|].
    apply logged_batches_cons; auto.
Qed.

Lemma BatchAccuracyForLogits_sums_run (xs ys : Tensor) (B N : nat)
    (xrows yrows : list value) (fuel : nat) (w : World) :
  content xs = Rows xrows -> content ys = Rows yrows ->
  length xrows = N -> length yrows = N ->
  (0 < B)%nat -> Z.of_nat N < 2 ^ 63 -> (N / B < fuel)%nat ->
  exists w' new,
    BatchAccuracyForLogits_sums fuel rt m xs ys d (Z.of_nat B) w
    = Ret (weighted_sums (float64_of_Z (Z.of_nat B))
             (map (batch_accuracy rt m false B xrows yrows) (seq 0 (N / B)))
             (0%float, 0%float)) w'
    /\ grad_enabled w' = grad_enabled w
    /\ calls w' = calls w ++ new
    /\ logged_batches new false B xrows yrows 0 (N / B).
Proof.
  intros Hx Hy Lx Ly HB HN Hfuel.
  unfold BatchAccuracyForLogits_sums, MustNewIter2, bind, MustSize0.
  rewrite Hx, Hy. cbn. rewrite Lx, Ly, Z.eqb_refl. cbn.
  apply (BatchAccuracyForLogits_loop_run xs ys B N xrows yrows Hx Hy Lx Ly HB HN
           (N / B) 0 fuel); [reflexivity | exact Hfuel].
Qed.

(** With enough fuel the evaluator returns the quotient of the two sums and
    ends in the mode it started in. *)
Lemma BatchAccuracyForLogits_run (xs ys : Tensor) (B N : nat)
    (xrows yrows : list value) (fuel : nat) (w : World) :
  content xs = Rows xrows -> content ys = Rows yrows ->
  length xrows = N -> length yrows = N ->
  (0 < B)%nat -> Z.of_nat N < 2 ^ 63 -> (N / B < fuel)%nat ->
  exists w' new,
    BatchAccuracyForLogits fuel rt m xs ys d (Z.of_nat B) w
    = Ret (let s := weighted_sums (float64_of_Z (Z.of_nat B))
                      (map (batch_accuracy rt m false B xrows yrows)
                           (seq 0 (N / B))) (0%float, 0%float)
           in (fst s / snd s)%float) w'
    /\ grad_enabled w' = grad_enabled w
    /\ calls w' = calls w ++ new
    /\ logged_batches new false B xrows yrows 0 (N / B).
Proof.
  intros Hx Hy Lx Ly HB HN Hfuel.
  unfold BatchAccuracyForLogits, NewNoGradGuard, MustGradSetEnabled, defer.
  unfold bind at 1 2. unfold ret at 1. unfold bind at 1.
  destruct (BatchAccuracyForLogits_sums_run xs ys B N xrows yrows fuel
              (mkWorld false (live w) (next_handle w) (calls w))
              Hx Hy Lx Ly HB HN Hfuel)
    as (w1 & new & Hrun & Hg & Hcalls & Hlog).
  rewrite Hrun. cbn. eexists _, new.
  split; [reflexivity|]. cbn. auto.
Qed.

(** *** Running the loop of [BatchAccuracyForLogitsIdx] *)

(** One pass of the body: the sums grow by the batch accuracy times the row
    count of the whole of [xs], and by that row count. *)
Lemma BatchAccuracyForLogitsIdx_body_run (xs imagesTs labelsTs : Tensor)
    (B k : nat) (xrows irows lrows : list value) (s c : float) (w : World) :
  content xs = Rows xrows ->
  content imagesTs = Rows irows -> content labelsTs = Rows lrows ->
  (k * B + B <= length irows)%nat -> (k * B + B <= length lrows)%nat ->
  Z.of_nat (length irows) < 2 ^ 63 ->
  exists w' bI bL lg ac,
    BatchAccuracyForLogitsIdx_body rt m xs d imagesTs labelsTs
      (Z.of_nat (k * B)) (Z.of_nat B) s c w
    = Ret ((s + batch_accuracy rt m true B irows lrows k
               * float64_of_Z (Z.of_nat (length xrows)))%float,
           (c + float64_of_Z (Z.of_nat (length xrows)))%float) w'
    /\ grad_enabled w' = grad_enabled w
    /\ calls w' = calls w ++ [CallForwardT bI true lg;
                              CallAccuracyForLogits lg bL ac]
    /\ content bI = Rows (chunk B k irows)
    /\ content bL = Rows (chunk B k lrows).
Proof.
  intros Hx Hi Hl Fi Fl HN.
  unfold BatchAccuracyForLogitsIdx_body, Idx, MustNarrow. cbn [Start End].
  rewrite int_add_id by (unfold in_int64; lia).
  replace (Z.of_nat (k * B) + Z.of_nat B - Z.of_nat (k * B)) with (Z.of_nat B)
    by lia.
  unfold AccuracyForLogits, bind, MustSize0. rewrite Hx, Hi, Hl.
  rewrite !narrow_rows_chunk by assumption.
  destruct (accuracy_consumes rt); cbn;
    do 5 eexists; (split; [reflexivity|]); cbn; rewrite <- app_assoc;
    repeat split; reflexivity.
Qed.

Lemma BatchAccuracyForLogitsIdx_loop_run (xs imagesTs labelsTs : Tensor)
    (B N : nat) (xrows irows lrows : list value) :
  content xs = Rows xrows ->
  content imagesTs = Rows irows -> content labelsTs = Rows lrows ->
  length irows = N -> length lrows = N ->
  (0 < B)%nat -> Z.of_nat N < 2 ^ 63 ->
  forall (r k : nat) (s c : float) (w : World),
    ((k + r) * B <= N)%nat ->
    exists w' new,
      BatchAccuracyForLogitsIdx_loop r rt m xs d imagesTs labelsTs
        (Z.of_nat N) (Z.of_nat B) (Z.of_nat k) s c w
      = Ret (weighted_sums (float64_of_Z (Z.of_nat (length xrows)))
               (map (batch_accuracy rt m true B irows lrows) (seq k r)) (s, c)) w'
      /\ grad_enabled w' = grad_enabled w
      /\ calls w' = calls w ++ new
      /\ logged_batches new true B irows lrows k r.
Proof.
  intros Hx Hi Hl Li Ll HB HN.
  induction r as [|r IH]; intros k s c w Hfit; cbn [BatchAccuracyForLogitsIdx_loop].
  - exists w, []. cbn. rewrite app_nil_r. repeat split; auto.
  - rewrite (start_of_batch B k N) by nia.
    rewrite int_sub_id by (unfold in_int64; lia).
    destruct (Z.ltb_spec (Z.of_nat N - Z.of_nat (k * B)) (Z.of_nat B)); [nia|].
    rewrite int_add_id by (unfold in_int64; nia).
    replace (Z.of_nat k + 1) with (Z.of_nat (S k)) by lia.
    unfold bind at 1.
    destruct (BatchAccuracyForLogitsIdx_body_run xs imagesTs labelsTs B k
                xrows irows lrows s c w Hx Hi Hl
                ltac:(nia) ltac:(nia) ltac:(lia))
      as (w2 & bI & bL & lg & ac & Hrun & Hg & Hcalls & HbI & HbL).
    rewrite Hrun. cbn [fst snd].
    destruct (IH (S k)
                (s + batch_accuracy rt m true B irows lrows k
                     * float64_of_Z (Z.of_nat (length xrows)))%float
                (c + float64_of_Z (Z.of_nat (length xrows)))%float
                w2 ltac:(nia))
      as (w3 & new & Hloop & Hg3 & Hcalls3 & Hlog).
    exists w3, ([CallForwardT bI true lg; CallAccuracyForLogits lg bL ac] ++ new).
    split; [rewrite Hloop; reflexivity|].
    split; [rewrite Hg3, Hg; reflexivity|].
    split; [rewrite Hcalls3, Hcalls; cbn; now rewrite <- app_assoc|].
    apply logged_batches_cons; auto.
Qed.

(** The index-based evaluator on [N] rows and a positive batch size [B]:
    the rows are shuffled by the one permutation the runtime draws, the
    batches are the [N / B] full chunks of the shuffled rows, and each
    batch adds its accuracy times [N], and [N], to the sums. *)
Lemma BatchAccuracyForLogitsIdx_sums_run (xs ys : Tensor) (B N : nat)
    (xrows yrows : list value) (w : World) :
  content xs = Rows xrows -> content ys = Rows yrows ->
  length xrows = N -> length yrows = N ->
  (0 < B)%nat -> Z.of_nat N < 2 ^ 63 ->
  randperm rt N ≡ₚ seq 0 N ->
  exists w' new,
    BatchAccuracyForLogitsIdx_sums rt m xs ys d (Z.of_nat B) w
    = Ret (weighted_sums (float64_of_Z (Z.of_nat N))
             (map (batch_accuracy rt m true B
                     (rows_at (randperm rt N) xrows)
                     (rows_at (randperm rt N) yrows))
                  (seq 0 (N / B)))
             (0%float, 0%float)) w'
    /\ grad_enabled w' = false
    /\ calls w' = calls w ++ new
    /\ logged_batches new true B (rows_at (randperm rt N) xrows)
                      (rows_at (randperm rt N) yrows) 0 (N / B).
Proof.
  intros Hx Hy Lx Ly HB HN Hperm.
  pose proof (permutation_in_range _ _ Hperm) as Hrange.
  assert (Hlen : length (randperm rt N) = N)
    by (rewrite Hperm; apply length_seq).
  unfold BatchAccuracyForLogitsIdx_sums.
  rewrite (bind_run _ _ _ _ _ (NewNoGradGuard_run w)).
  erewrite bind_run by (apply MustSize0_run; exact Hx).
  rewrite Lx.
  erewrite bind_run by (apply MustRandperm_run).
  rewrite Nat2Z.id.
  erewrite bind_run
    by (eapply MustIndexSelect_run;
        [exact Hx | apply index_positions_of_nats | rewrite Lx; exact Hrange]).
  erewrite bind_run
    by (eapply MustIndexSelect_run;
        [exact Hy | apply index_positions_of_nats | rewrite Ly; exact Hrange]).
  rewrite int_div_nat by assumption.
  rewrite Nat2Z.id.
  match goal with
  | |- context [bind (BatchAccuracyForLogitsIdx_loop _ rt m xs d ?iT ?lT _ _ _ _ _)
                       _ ?w1] =>
      destruct (BatchAccuracyForLogitsIdx_loop_run xs iT lT B N xrows
                  (rows_at (randperm rt N) xrows) (rows_at (randperm rt N) yrows)
                  Hx eq_refl eq_refl
                  ltac:(rewrite rows_at_length; [exact Hlen | rewrite Lx; exact Hrange])
                  ltac:(rewrite rows_at_length; [exact Hlen | rewrite Ly; exact Hrange])
                  HB HN (N / B) 0 0%float 0%float w1
                  ltac:(destruct (no_batch_left B N HB); lia))
        as (w3 & new & Hloop & Hg3 & Hcalls3 & Hlog)
  end.
  change (Z.of_nat 0) with 0 in Hloop. rewrite Lx in Hloop.
  erewrite bind_run by (exact Hloop).
  cbn. eexists _, new. split; [reflexivity|]. cbn.
  cbn in Hg3, Hcalls3. split; [|split]; assumption.
Qed.

End Runs.

(** *** The batches of the index-based evaluator, and runs over no batch *)

Section Evaluators.

Variable rt : Runtime.
Variable m : ModuleT.
Variable d : gotch.Device.

Lemma BatchAccuracyForLogitsIdx_run (xs ys : Tensor) (B N : nat)
    (xrows yrows : list value) (w : World) :
  content xs = Rows xrows -> content ys = Rows yrows ->
  length xrows = N -> length yrows = N ->
  (0 < B)%nat -> Z.of_nat N < 2 ^ 63 ->
  randperm rt N ≡ₚ seq 0 N ->
  exists w' new,
    BatchAccuracyForLogitsIdx rt m xs ys d (Z.of_nat B) w
    = Ret (let s := weighted_sums (float64_of_Z (Z.of_nat N))
                      (map (batch_accuracy rt m true B
                              (rows_at (randperm rt N) xrows)
                              (rows_at (randperm rt N) yrows))
                           (seq 0 (N / B))) (0%float, 0%float)
           in (fst s / snd s)%float) w'
    /\ grad_enabled w' = false
    /\ calls w' = calls w ++ new
    /\ logged_batches new true B (rows_at (randperm rt N) xrows)
                      (rows_at (randperm rt N) yrows) 0 (N / B).
Proof.
  intros Hx Hy Lx Ly HB HN Hperm.
  destruct (BatchAccuracyForLogitsIdx_sums_run rt m d xs ys B N xrows yrows w
              Hx Hy Lx Ly HB HN Hperm)
    as (w1 & new & Hrun & Hg & Hcalls & Hlog).
  unfold BatchAccuracyForLogitsIdx.
  erewrite bind_run by exact Hrun.
  exists w1, new. auto.
Qed.




(** C5 (amended): over fewer rows than one batch takes, that is over zero
    batches, both evaluators return normally, and the value they return is
    the quotient of the two empty sums, [0/0 = NaN]. *)
Theorem C5_zero_batches_return_nan (xs ys : Tensor) (B N : nat)
    (xrows yrows : list value) (fuel : nat) (w : World) :
  content xs = Rows xrows -> content ys = Rows yrows ->
  length xrows = N -> length yrows = N ->
  (N < B)%nat -> Z.of_nat N < 2 ^ 63 ->
  randperm rt N ≡ₚ seq 0 N ->
  returned (BatchAccuracyForLogits (S fuel) rt m xs ys d (Z.of_nat B) w) = Some nan
  /\ returned (BatchAccuracyForLogitsIdx rt m xs ys d (Z.of_nat B) w) = Some nan.
Proof.
  intros Hx Hy Lx Ly HB HN Hperm.
  assert (Hzero : (N / B = 0)%nat) by (apply Nat.div_small; exact HB).
  split.
  - destruct (BatchAccuracyForLogits_run rt m d xs ys B N xrows yrows (S fuel) w
                Hx Hy Lx Ly ltac:(lia) HN ltac:(lia))
      as (w1 & new & Hrun & _).
    rewrite Hrun, Hzero. reflexivity.
  - destruct (BatchAccuracyForLogitsIdx_run xs ys B N xrows yrows w
                Hx Hy Lx Ly ltac:(lia) HN Hperm)
      as (w1 & new & Hrun & _).
    rewrite Hrun, Hzero. reflexivity.
Qed.

End Evaluators.

(** C10: every forward pass [BatchAccuracyForLogits] makes is a call of
    [ForwardT] with [train = false]: so on every run that returns or panics,
    and on [N] rows in batches of [B > 0] the evaluator returns, given fuel
    for its [N / B] batches, after exactly [N / B] forward passes, all of
    them in evaluation mode. *)
Theorem C10_forward_passes_in_evaluation_mode :
  (forall fuel rt m xs ys d batchSize w,
     match BatchAccuracyForLogits fuel rt m xs ys d batchSize w with
     | Ret _ w' | Panicked w' =>
         exists new, calls w' = calls w ++ new /\ Forall eval_mode_call new
     | OutOfFuel => True
     end)
  /\ (forall rt m d xs ys (B N : nat) xrows yrows fuel w,
     content xs = Rows xrows -> content ys = Rows yrows ->
     length xrows = N -> length yrows = N ->
     (0 < B)%nat -> Z.of_nat N < 2 ^ 63 -> (N / B < fuel)%nat ->
     exists v w' new,
       BatchAccuracyForLogits fuel rt m xs ys d (Z.of_nat B) w = Ret v w'
       /\ calls w' = calls w ++ new
       /\ forward_modes new = repeat false (N / B)).
Proof.
  split.
  - intros fuel rt m xs ys d batchSize w.
    pose proof (keeps_BatchAccuracyForLogits fuel rt m xs ys d batchSize w) as H.
    destruct (BatchAccuracyForLogits _ _ _ _ _ _ _ _); auto; apply H.
  - intros rt m d xs ys B N xrows yrows fuel w Hx Hy Lx Ly HB HN Hfuel.
    destruct (BatchAccuracyForLogits_run rt m d xs ys B N xrows yrows fuel w
                Hx Hy Lx Ly HB HN Hfuel)
      as (w1 & new & Hrun & _ & Hcalls & _ & Hmodes & _).
    eexists _, w1, new. eauto.
Qed.

Lemma C10_witness :
  exists v w' new,
    BatchAccuracyForLogits 4 reversing_runtime echo_module xs10 ys10
      (gotch.Cuda 0) (Z.of_nat 3) world0 = Ret v w'
    /\ calls w' = calls world0 ++ new
    /\ forward_modes new = repeat false (10 / 3)%nat.
Proof.
  apply (proj2 C10_forward_passes_in_evaluation_mode reversing_runtime
           echo_module (gotch.Cuda 0) xs10 ys10 3%nat 10%nat
           (batch_rows (rows_upto 10)) (batch_rows (rows_upto 10)));
    try reflexivity; cbn; lia.
Defined.

(** *** Handles across one iteration *)

(** Of the Handles one iteration of either evaluator allocates, the slices,
    the copies on the device and the accuracy scalar are released by the
    evaluator; the logits, which the evaluator never drops, are live
    afterwards exactly when the accuracy primitive has left them live. *)
Lemma iteration_transients (rt : Runtime) (m : ModuleT)
    (d : gotch.Device) (item : Iter2Item) (rs : list value)
    (xs imagesTs labelsTs : Tensor) (B k : nat) (xrows irows lrows : list value)
    (s c : float) (w : World) :
  content (Data item) = Rows rs ->
  content xs = Rows xrows ->
  content imagesTs = Rows irows -> content labelsTs = Rows lrows ->
  (k * B + B <= length irows)%nat -> (k * B + B <= length lrows)%nat ->
  Z.of_nat (length irows) < 2 ^ 63 ->
  (exists sums w' bI bL lg ac,
     BatchAccuracyForLogits_body rt m d item s c w = Ret sums w'
     /\ calls w' = calls w ++ [CallForwardT bI false lg;
                               CallAccuracyForLogits lg bL ac]
     /\ Forall (fun t => (next_handle w <= ctensor t)%positive
                         /\ (ctensor t < next_handle w')%positive)
               [bI; bL; lg; ac]
     /\ forall h : handle,
          (next_handle w <= h)%positive -> (h < next_handle w')%positive ->
          (h ∈ live w' <-> h = ctensor lg /\ accuracy_consumes rt = false))
  /\ (exists sums w' bI bL lg ac,
     BatchAccuracyForLogitsIdx_body rt m xs d imagesTs labelsTs
       (Z.of_nat (k * B)) (Z.of_nat B) s c w = Ret sums w'
     /\ calls w' = calls w ++ [CallForwardT bI true lg;
                               CallAccuracyForLogits lg bL ac]
     /\ Forall (fun t => (next_handle w <= ctensor t)%positive
                         /\ (ctensor t < next_handle w')%positive)
               [bI; bL; lg; ac]
     /\ forall h : handle,
          (next_handle w <= h)%positive -> (h < next_handle w')%positive ->
          (h ∈ live w' <-> h = ctensor lg /\ accuracy_consumes rt = false)).
Proof.
  intros Hd Hx Hi Hl Fi Fl HN. split.
  - unfold BatchAccuracyForLogits_body, AccuracyForLogits, bind, MustSize0.
    rewrite Hd.
    destruct (accuracy_consumes rt); cbn; do 6 eexists;
      (split; [reflexivity|]); cbn; rewrite <- app_assoc;
      (split; [reflexivity|]); cbn;
      (split; [repeat constructor; cbn; lia|]);
      intros h Hlo Hhi;
      assert (Hcases : h = next_handle w \/ h = Pos.succ (next_handle w)
                       \/ h = Pos.succ (Pos.succ (next_handle w))
                       \/ h = Pos.succ (Pos.succ (Pos.succ (next_handle w))))
        by lia;
      destruct Hcases as [ -> | [ -> | [ -> | -> ] ] ];
      set_unfold; intuition (first [lia | congruence]).
  - unfold BatchAccuracyForLogitsIdx_body, Idx, MustNarrow. cbn [Start End].
    rewrite int_add_id by (unfold in_int64; lia).
    replace (Z.of_nat (k * B) + Z.of_nat B - Z.of_nat (k * B)) with (Z.of_nat B)
      by lia.
    unfold AccuracyForLogits, bind, MustSize0. rewrite Hx, Hi, Hl.
    rewrite !narrow_rows_chunk by assumption.
    destruct (accuracy_consumes rt); cbn; do 6 eexists;
      (split; [reflexivity|]); cbn; rewrite <- app_assoc;
      (split; [reflexivity|]); cbn;
      (split; [repeat constructor; cbn; lia|]);
      intros h Hlo Hhi;
      assert (Hcases :
        h = next_handle w \/ h = Pos.succ (next_handle w)
        \/ h = Pos.succ (Pos.succ (next_handle w))
        \/ h = Pos.succ (Pos.succ (Pos.succ (next_handle w)))
        \/ h = Pos.succ (Pos.succ (Pos.succ (Pos.succ (next_handle w))))
        \/ h = Pos.succ (Pos.succ (Pos.succ (Pos.succ (Pos.succ (next_handle w))))))
        by lia;
      destruct Hcases as [ -> | [ -> | [ -> | [ -> | [ -> | -> ] ] ] ] ];
      set_unfold; intuition (first [lia | congruence]).
Qed.


(** The evaluators rely on the primitive for the logits: on a runtime whose
    accuracy primitive leaves its receiver live, the logits of an iteration
    are still live when it ends. *)
Lemma logits_outlive_a_keeping_primitive (rt : Runtime) (m : ModuleT)
    (d : gotch.Device) (item : Iter2Item) (rs : list value)
    (xs imagesTs labelsTs : Tensor) (B k : nat) (xrows irows lrows : list value)
    (s c : float) (w : World) :
  accuracy_consumes rt = false ->
  content (Data item) = Rows rs ->
  content xs = Rows xrows ->
  content imagesTs = Rows irows -> content labelsTs = Rows lrows ->
  (k * B + B <= length irows)%nat -> (k * B + B <= length lrows)%nat ->
  Z.of_nat (length irows) < 2 ^ 63 ->
  (exists sums w' bI bL lg ac,
     BatchAccuracyForLogits_body rt m d item s c w = Ret sums w'
     /\ calls w' = calls w ++ [CallForwardT bI false lg;
                               CallAccuracyForLogits lg bL ac]
     /\ ctensor lg ∈ live w')
  /\ (exists sums w' bI bL lg ac,
     BatchAccuracyForLogitsIdx_body rt m xs d imagesTs labelsTs
       (Z.of_nat (k * B)) (Z.of_nat B) s c w = Ret sums w'
     /\ calls w' = calls w ++ [CallForwardT bI true lg;
                               CallAccuracyForLogits lg bL ac]
     /\ ctensor lg ∈ live w').
Proof.
  intros Hkeeps Hd Hx Hi Hl Fi Fl HN.
  destruct (iteration_transients rt m d item rs xs imagesTs labelsTs B k
              xrows irows lrows s c w Hd Hx Hi Hl Fi Fl HN)
    as [(s1 & w1 & bI1 & bL1 & lg1 & ac1 & Hrun1 & Hcalls1 & Hin1 & Hlive1)
        (s2 & w2 & bI2 & bL2 & lg2 & ac2 & Hrun2 & Hcalls2 & Hin2 & Hlive2)].
  split.
  - exists s1, w1, bI1, bL1, lg1, ac1. do 2 (split; [assumption|]).
    apply Forall_cons in Hin1 as [_ Hin]. apply Forall_cons in Hin as [_ Hin].
    apply Forall_cons in Hin as [[Hlo Hhi] _].
    apply Hlive1; auto.
  - exists s2, w2, bI2, bL2, lg2, ac2. do 2 (split; [assumption|]).
    apply Forall_cons in Hin2 as [_ Hin]. apply Forall_cons in Hin as [_ Hin].
    apply Forall_cons in Hin as [[Hlo Hhi] _].
    apply Hlive2; auto.
Qed.


(** *** The optional-module combinators *)

(** C6 (amended): with a module present, [ApplyOpt] and [ApplyOptT] are the
    forward pass of the first option's module, [Apply] and [ApplyT]; with no
    module they return a shallow clone, which is the input Handle over again:
    the same foreign resource, and a world in which nothing was allocated. *)
Theorem C6_module_or_shallow_clone (ts : Tensor) (train : bool)
    (opt : ModuleOption) (rest : list ModuleOption)
    (optT : ModuleTOption) (restT : list ModuleTOption) (w : World) :
  ApplyOpt ts (opt :: rest) w = Apply ts (opt tt) w
  /\ ApplyOptT ts train (optT :: restT) w = ApplyT ts (optT tt) train w
  /\ ApplyOpt ts [] w = Ret ts w
  /\ ApplyOptT ts train [] w = Ret ts w.
Proof.
  repeat split; destruct ts; reflexivity.
Qed.

(** C6 (the claim as stated fails): without a module, what [ApplyOpt] returns
    for [xs4] is not a copy that owns a resource of its own. *)
Lemma C6_no_module_returns_an_alias :
  match ApplyOpt xs4 [] world0 with
  | Ret r w' => ~ materializing_copy world0 w' xs4 r
  | _ => False
  end.
Proof.
  cbn. intros (_ & Hne & _). apply Hne. reflexivity.
Qed.

(** *** The evaluators on small inputs *)

(** C1 (the code departs from the claim): on four samples in batches of two,
    [BatchAccuracyForLogits] adds each batch accuracy times 2 and adds 2 per
    batch, ending with the sums 3 and 4.  [BatchAccuracyForLogitsIdx] sees
    the batch accuracies 0.5 and 1 and ends with the sums 6 and 8: it weighs
    each batch by 4, the row count of the whole of [xs], where the batch's
    own row count gives 3 and 4. *)
Theorem C1_idx_evaluator_weighs_by_total_size :
  returned (BatchAccuracyForLogits_sums 3 reversing_runtime echo_module
              xs4 ys4 (gotch.Cuda 0) 2 world0)
    = Some (3%float, 4%float)
  /\ returned (BatchAccuracyForLogitsIdx_sums reversing_runtime echo_module
                 xs4 ys4 (gotch.Cuda 0) 2 world0)
    = Some (6%float, 8%float)
  /\ map (batch_accuracy reversing_runtime echo_module true 2
            (rows_at [3; 2; 1; 0]%nat (batch_rows (content xs4)))
            (rows_at [3; 2; 1; 0]%nat (batch_rows (content ys4)))) [0; 1]%nat
    = [0.5%float; 1%float]
  /\ weighted_sums 2 [0.5%float; 1%float] (0%float, 0%float)
    = (3%float, 4%float)
  /\ float_neq 6 3 /\ float_neq 8 4.
Proof.
  repeat split; try (vm_compute; reflexivity);
    unfold float_neq; vm_compute; discriminate.
Qed.

(** C5 (the claim as stated fails): over no sample at all,
    [BatchAccuracyForLogits] returns NaN and does not report an error. *)
Lemma C5_empty_input_is_not_reported :
  returned (BatchAccuracyForLogits 1 reversing_runtime echo_module
              xs0 ys0 (gotch.Cuda 0) 2 world0) = Some nan
  /\ ~ reports_error (BatchAccuracyForLogits 1 reversing_runtime echo_module
                        xs0 ys0 (gotch.Cuda 0) 2 world0).
Proof. split; [vm_compute; reflexivity | vm_compute; intros []]. Qed.

Lemma C5_witness :
  returned (BatchAccuracyForLogits 1 reversing_runtime echo_module
              xs4 ys4 (gotch.Cuda 0) (Z.of_nat 5) world0) = Some nan
  /\ returned (BatchAccuracyForLogitsIdx reversing_runtime echo_module
                 xs4 ys4 (gotch.Cuda 0) (Z.of_nat 5) world0) = Some nan.
Proof.
  apply (C5_zero_batches_return_nan reversing_runtime echo_module (gotch.Cuda 0)
           xs4 ys4 5 4 [Int 0; Int 1; Int 2; Int 3] [Int 0; Int 1; Int 2; Int 0]
           0 world0);
    try reflexivity; try lia.
  apply (bool_decide_unpack _). vm_compute. exact I.
Defined.



(** The two runs the spec works out: ten rows in batches of three are three
    batches of three rows, one row is dropped; nine rows are three batches of
    three rows. *)
Example ten_rows_in_batches_of_three :
  option_map (fun w => map (fun b => length (batch_rows b))
                           (forward_inputs (calls w)))
    (final_world (BatchAccuracyForLogitsIdx reversing_runtime echo_module
                    xs10 ys10 (gotch.Cuda 0) 3 world0))
  = Some [3; 3; 3]%nat.
Proof. vm_compute. reflexivity. Qed.

Example nine_rows_in_batches_of_three :
  option_map (fun w => map (fun b => length (batch_rows b))
                           (forward_inputs (calls w)))
    (final_world (BatchAccuracyForLogitsIdx reversing_runtime echo_module
                    xs9 ys9 (gotch.Cuda 0) 3 world0))
  = Some [3; 3; 3]%nat.
Proof. vm_compute. reflexivity. Qed.

(** The iterator-based evaluator on the same ten rows: three forward passes,
    all in evaluation mode. *)
Example ten_rows_forward_modes :
  option_map (fun w => forward_modes (calls w))
    (final_world (BatchAccuracyForLogits 4 reversing_runtime echo_module
                    xs10 ys10 (gotch.Cuda 0) 3 world0))
  = Some [false; false; false].
Proof. vm_compute. reflexivity. Qed.

(** Called with gradient tracking on, the index-based evaluator returns with
    it off. *)
Example idx_evaluator_switches_grad_off :
  grad_enabled world0 = true
  /\ option_map grad_enabled
       (final_world (BatchAccuracyForLogitsIdx reversing_runtime echo_module
                       xs4 ys4 (gotch.Cuda 0) 2 world0))
     = Some false.
Proof. split; vm_compute; reflexivity. Qed.

(** A data set and a label set of different lengths: the iterator-based
    evaluator panics, and the deferred [Drop] has restored the mode. *)
Example guard_restores_the_mode_on_panic :
  reports_error (BatchAccuracyForLogits 4 reversing_runtime echo_module
                   xs4 ys0 (gotch.Cuda 0) 2 world0)
  /\ option_map grad_enabled
       (final_world (BatchAccuracyForLogits 4 reversing_runtime echo_module
                       xs4 ys0 (gotch.Cuda 0) 2 world0))
     = Some true.
Proof. split; vm_compute; [exact I | reflexivity]. Qed.

(** A batch size of zero: [samples / batchSize] panics in the index-based
    evaluator, after the guard was acquired. *)
Example idx_evaluator_panics_on_batch_size_zero :
  reports_error (BatchAccuracyForLogitsIdx reversing_runtime echo_module
                   xs4 ys4 (gotch.Cuda 0) 0 world0)
  /\ option_map grad_enabled
       (final_world (BatchAccuracyForLogitsIdx reversing_runtime echo_module
                       xs4 ys4 (gotch.Cuda 0) 0 world0))
     = Some false.
Proof. split; vm_compute; [exact I | reflexivity]. Qed.

End tensor_proofs.

(** ** [nn/init.go]: the initialisers beyond the two sampling expressions *)

Module nn_extras.
Import GoNum GoNumFacts nn.

(** *** [factorial] *)

Lemma factorial_unfold (n : Z) :
  0 < n -> factorial n = wrap_uint64 (n * factorial (n - 1)).
Proof.
  intros Hn. unfold factorial.
  replace (Z.to_nat n) with (S (Z.to_nat (n - 1))) by lia.
  cbn [factorial_rec]. destruct (Z.gtb_spec n 0); [reflexivity | lia].
Qed.

Lemma factorial_mod (n : nat) :
  factorial (Z.of_nat n) = factorial_spec n mod 2 ^ 64.
Proof.
  induction n as [|n IH]; [reflexivity|].
  rewrite factorial_unfold by lia.
  replace (Z.of_nat (S n) - 1) with (Z.of_nat n) by lia.
  rewrite IH. unfold wrap_uint64.
  change (factorial_spec (S n)) with (Z.of_nat (S n) * factorial_spec n).
  apply Z.mul_mod_idemp_r. lia.
Qed.

Lemma factorial_spec_divisible (k : nat) :
  factorial_spec (66 + k) mod 2 ^ 64 = 0.
Proof.
  induction k as [|k IH]; [vm_compute; reflexivity|].
  rewrite Nat.add_succ_r.
  change (factorial_spec (S (66 + k)))
    with (Z.of_nat (S (66 + k)) * factorial_spec (66 + k)).
  rewrite <- Z.mul_mod_idemp_r by lia.
  rewrite IH, Z.mul_0_r. reflexivity.
Qed.

Lemma factorial_vanishes (n : nat) :
  (66 <= n)%nat -> factorial (Z.of_nat n) = 0.
Proof.
  intros Hn. rewrite factorial_mod.
  replace n with (66 + (n - 66))%nat by lia.
  apply factorial_spec_divisible.
Qed.

(** X1: the [uint64] recursion computes the factorial modulo [2^64], for
    every argument. *)
Theorem X1_factorial_is_factorial_modulo_2_64 (n : nat) :
  factorial (Z.of_nat n) = factorial_spec n mod 2 ^ 64.
Proof. apply factorial_mod. Qed.

(** The argument [factorial] receives for a shape. *)
Lemma kaiming_fan_in (dims : list Z) :
  (1 <= length dims)%nat -> Z.of_nat (length dims) < 2 ^ 63 ->
  wrap_uint64 (int_sub (Z.of_nat (length dims)) 1)
  = Z.of_nat (length dims - 1).
Proof.
  intros H1 H2.
  rewrite int_sub_id by (unfold in_int64; lia).
  rewrite wrap_uint64_id by lia. lia.
Qed.

Lemma kaiming_bound_infinite (dims : list Z) :
  (67 <= length dims)%nat -> Z.of_nat (length dims) < 2 ^ 63 ->
  kaiming_bound dims = infinity.
Proof.
  intros H1 H2. unfold kaiming_bound.
  rewrite kaiming_fan_in by lia.
  rewrite factorial_vanishes by lia. reflexivity.
Qed.

(** X2: from rank 67 on, the wrapped factorial is 0 and the bound of
    [kaimingUniformInit] is [+Inf], whatever the dimensions are. *)
Theorem X2_kaiming_bound_infinite_from_rank_67 (dims : list Z) :
  (67 <= length dims)%nat -> Z.of_nat (length dims) < 2 ^ 63 ->
  kaiming_bound dims = infinity.
Proof. apply kaiming_bound_infinite. Qed.

Lemma X2_witness : kaiming_bound (demo.ones 70) = infinity.
Proof.
  apply (X2_kaiming_bound_infinite_from_rank_67 (demo.ones 70)); cbn; lia.
Defined.

(** X3: for every shape of rank at least 1 the bound is a positive number or
    [+Inf]: it is never NaN, zero or negative, although the factorial
    wraps. *)
Theorem X3_kaiming_bound_is_positive (dims : list Z) :
  (1 <= length dims)%nat -> Z.of_nat (length dims) < 2 ^ 63 ->
  PrimFloat.ltb 0 (kaiming_bound dims) = true.
Proof.
  intros H1 H2.
  destruct (le_lt_dec 67 (length dims)) as [Hbig|Hsmall].
  - rewrite kaiming_bound_infinite by assumption. reflexivity.
  - unfold kaiming_bound. rewrite kaiming_fan_in by lia.
    destruct (length dims) as [|n]; [lia|].
    replace (S n - 1)%nat with n by lia.
    do 66 (destruct n as [|n]; [vm_compute; reflexivity|]). lia.
Qed.

Lemma X3_witness : PrimFloat.ltb 0 (kaiming_bound [3; 4; 5]) = true.
Proof. apply (X3_kaiming_bound_is_positive [3; 4; 5]); cbn; lia. Defined.

(** *** Shapes and element counts *)

Lemma make_float64_Some (n : Z) (data : list float) :
  make_float64 n = Some data -> 0 <= n /\ length data = Z.to_nat n.
Proof.
  unfold make_float64. destruct (Z.ltb_spec n 0); [discriminate|].
  intros [= <-]. split; [assumption | apply repeat_length].
Qed.

Lemma make_float64_nonneg (n : Z) :
  0 <= n -> make_float64 n = Some (repeat 0%float (Z.to_nat n)).
Proof.
  intros Hn. unfold make_float64. destruct (Z.ltb_spec n 0); [lia | reflexivity].
Qed.

Lemma make_float64_negative (n : Z) : n < 0 -> make_float64 n = None.
Proof.
  intros Hn. unfold make_float64. destruct (Z.ltb_spec n 0); [reflexivity | lia].
Qed.

Lemma NewTensorFromData_fits (data : list float) (dims : list Z) :
  Forall (fun n => 0 <= n) dims ->
  Z.of_nat (length data) = FlattenDim dims ->
  NewTensorFromData data dims = Some (mkTensor dims data).
Proof.
  intros Hd H. unfold NewTensorFromData.
  rewrite H, Z.eqb_refl, andb_true_r.
  replace (forallb (fun n => 0 <=? n) dims) with true; [reflexivity|].
  symmetry. apply forallb_forall. intros n Hn.
  rewrite Forall_forall in Hd. apply Z.leb_le, Hd, list_elem_of_In, Hn.
Qed.

Lemma NewTensorFromData_Some (data : list float) (dims : list Z) (t : Tensor) :
  NewTensorFromData data dims = Some t ->
  t = mkTensor dims data /\ Z.of_nat (length data) = FlattenDim dims.
Proof.
  unfold NewTensorFromData.
  destruct (forallb _ dims); [|discriminate]. cbn [andb].
  destruct (Z.eqb_spec (Z.of_nat (length data)) (FlattenDim dims));
    [|discriminate].
  intros [= <-]. auto.
Qed.

Lemma MustZeros_Ok (dims : list Z) (device : gotch.Device) (t : Tensor) :
  MustZeros dims device = Ok t -> shape t = dims /\ well_formed t.
Proof.
  unfold MustZeros. destruct (make_float64 _) as [data|] eqn:E; [|discriminate].
  intros [= <-]. apply make_float64_Some in E as [Hn Hl].
  split; [reflexivity|]. unfold well_formed. cbn [elems shape Fill_ Uniform_ Copy_]. lia.
Qed.

Lemma MustOnes_Ok (dims : list Z) (device : gotch.Device) (t : Tensor) :
  MustOnes dims device = Ok t -> shape t = dims /\ well_formed t.
Proof.
  unfold MustOnes. destruct (make_float64 _) as [data|] eqn:E; [|discriminate].
  intros [= <-]. apply make_float64_Some in E as [Hn Hl].
  split; [reflexivity|]. unfold well_formed. cbn [elems shape Fill_ Uniform_ Copy_]. rewrite length_map. lia.
Qed.

Lemma Uniform__keeps (draw : float -> float -> nat -> float) (t : Tensor)
    (a b : float) :
  well_formed t ->
  shape (Uniform_ draw t a b) = shape t /\ well_formed (Uniform_ draw t a b).
Proof.
  intros H. split; [reflexivity|]. unfold well_formed in *. cbn [elems shape Fill_ Uniform_ Copy_].
  now rewrite length_imap.
Qed.

Lemma filled_Ok (dims : list Z) (f : list float -> list float) (t : Tensor) :
  (forall data, length (f data) = length data) ->
  match make_float64 (FlattenDim dims) with
  | None => Panic
  | Some data =>
      match NewTensorFromData (f data) dims with
      | Some retVal => Ok retVal
      | None => Fatal
      end
  end = Ok t ->
  0 <= FlattenDim dims
  /\ t = mkTensor dims (f (repeat 0%float (Z.to_nat (FlattenDim dims)))).
Proof.
  intros Hf. destruct (make_float64 _) as [data|] eqn:E; [|discriminate].
  pose proof E as E'. apply make_float64_Some in E' as [Hn Hl].
  rewrite make_float64_nonneg in E by assumption. injection E as <-.
  destruct (NewTensorFromData _ dims) as [retVal|] eqn:Et; [|discriminate].
  apply NewTensorFromData_Some in Et as [-> _].
  intros [= <-]. auto.
Qed.

Lemma FlattenDim_nonneg (dims : list Z) :
  Forall (fun n => 0 <= n) dims -> 0 <= FlattenDim dims.
Proof.
  unfold FlattenDim. induction 1 as [|n dims Hn _ IH]; cbn; [lia | nia].
Qed.

(** X4: [constInit.InitTensor] on a shape without a negative dimension
    returns a tensor of that shape with product-many elements, and every
    element is the constant itself or compares equal to it with [==] (the
    zero- and one-fill branches are chosen by [==]). *)
Theorem X4_constInit_fills_with_the_constant (c : constInit) (dims : list Z)
    (device : gotch.Device) :
  Forall (fun n => 0 <= n) dims ->
  exists t,
    constInit_InitTensor c dims device = Ok t
    /\ shape t = dims
    /\ length (elems t) = Z.to_nat (FlattenDim dims)
    /\ Forall (fun x => x = value c \/ PrimFloat.eqb (value c) x = true)
              (elems t).
Proof.
  intros Hdims. pose proof (FlattenDim_nonneg dims Hdims) as Hn.
  unfold constInit_InitTensor, MustZeros, MustOnes.
  rewrite make_float64_nonneg by assumption.
  destruct (PrimFloat.eqb (value c) 0) eqn:E0;
    [|destruct (PrimFloat.eqb (value c) 1) eqn:E1].
  - eexists. split; [reflexivity|]. cbn. rewrite repeat_length.
    repeat split. apply Forall_forall. intros x Hx.
    apply list_elem_of_In, repeat_spec in Hx. subst x. auto.
  - eexists. split; [reflexivity|]. cbn. rewrite length_map, repeat_length.
    repeat split. apply Forall_forall. intros x Hx.
    apply list_elem_of_fmap in Hx as (y & -> & _). auto.
  - rewrite NewTensorFromData_fits
      by (first [exact Hdims | rewrite length_map, repeat_length; lia]).
    eexists. split; [reflexivity|]. cbn. rewrite length_map, repeat_length.
    repeat split. apply Forall_forall. intros x Hx.
    apply list_elem_of_fmap in Hx as (y & -> & _). auto.
Qed.

Lemma X4_witness :
  exists t,
    constInit_InitTensor (NewConstInit 0.5) [2; 3] gotch.CPU = Ok t
    /\ shape t = [2; 3]
    /\ length (elems t) = Z.to_nat (FlattenDim [2; 3])
    /\ Forall (fun x => x = value (NewConstInit 0.5)
                        \/ PrimFloat.eqb (value (NewConstInit 0.5)) x = true)
              (elems t).
Proof.
  apply (X4_constInit_fills_with_the_constant (NewConstInit 0.5) [2; 3] gotch.CPU).
  repeat constructor; lia.
Defined.

Lemma keeps_shape_constInit (c : constInit) : keeps_shape (constInit_Init c).
Proof.
  split.
  - intros dims device t. cbn. unfold constInit_InitTensor.
    destruct (PrimFloat.eqb (value c) 0); [apply MustZeros_Ok|].
    destruct (PrimFloat.eqb (value c) 1); [apply MustOnes_Ok|].
    intros H. apply (filled_Ok dims (map (fun _ => value c))) in H as [Hn ->];
      [|intros; apply length_map].
    split; [reflexivity|]. unfold well_formed. cbn [elems shape Fill_ Uniform_ Copy_].
    rewrite length_map, repeat_length. lia.
  - intros t t' Hwf. cbn. unfold constInit_Set. intros [= <-].
    split; [reflexivity|]. unfold well_formed in *. cbn [elems shape Fill_ Uniform_ Copy_]. now rewrite length_map.
Qed.

Lemma keeps_shape_randnInit (NormFloat64 : nat -> float) (r : randnInit) :
  keeps_shape (randnInit_Init NormFloat64 r).
Proof.
  split.
  - intros dims device t. cbn. unfold randnInit_InitTensor.
    intros H. apply (filled_Ok dims (randn_fill NormFloat64 r)) in H as [Hn ->];
      [|intros; apply length_imap].
    split; [reflexivity|]. unfold well_formed. cbn [elems shape Fill_ Uniform_ Copy_]. unfold randn_fill.
    rewrite length_imap, repeat_length. lia.
  - intros t t' Hwf. cbn. unfold randnInit_Set, Size.
    destruct (make_float64 _) as [data|] eqn:E; [|discriminate].
    apply make_float64_Some in E as [Hn Hl].
    destruct (NewTensorFromData _ _) as [randnTs|] eqn:Et; [|discriminate].
    apply NewTensorFromData_Some in Et as [-> Hfit].
    intros [= <-]. split; [reflexivity|]. unfold well_formed.
    cbn [elems shape Fill_ Uniform_ Copy_]. exact Hfit.
Qed.

Lemma keeps_shape_uniformInit (draw : float -> float -> nat -> float)
    (u : uniformInit) :
  keeps_shape (uniformInit_Init draw u).
Proof.
  split.
  - intros dims device t. cbn. unfold uniformInit_InitTensor.
    destruct (MustZeros dims device) as [z| |] eqn:E; try discriminate.
    apply MustZeros_Ok in E as [Hs Hwf]. intros [= <-].
    destruct (Uniform__keeps draw z (lo u) (up u) Hwf). split; congruence.
  - intros t t' Hwf. cbn. unfold uniformInit_Set. intros [= <-].
    now apply Uniform__keeps.
Qed.

Lemma keeps_shape_kaiming (draw : float -> float -> nat -> float) :
  keeps_shape (NewKaimingUniformInit draw).
Proof.
  split.
  - intros dims device t. cbn. unfold kaimingUniformInit_InitTensor.
    destruct (MustZeros dims device) as [z| |] eqn:E; try discriminate.
    apply MustZeros_Ok in E as [Hs Hwf]. intros [= <-].
    destruct (Uniform__keeps draw z (- kaiming_bound dims)%float
                (kaiming_bound dims) Hwf). split; congruence.
  - intros t t' Hwf. cbn. unfold kaimingUniformInit_Set, Size. intros [= <-].
    now apply Uniform__keeps.
Qed.

(** X6: each of the four initialisers keeps to the shape.  What
    [InitTensor] returns has the requested shape and product-many elements;
    [Set] on a tensor that holds as many elements as its shape says leaves
    the shape and the element count as they are. *)
Theorem X6_initialisers_keep_shape_and_count
    (NormFloat64 : nat -> float) (draw : float -> float -> nat -> float)
    (c : constInit) (r : randnInit) (u : uniformInit) :
  keeps_shape (constInit_Init c)
  /\ keeps_shape (randnInit_Init NormFloat64 r)
  /\ keeps_shape (uniformInit_Init draw u)
  /\ keeps_shape (NewKaimingUniformInit draw).
Proof.
  split; [apply keeps_shape_constInit|].
  split; [apply keeps_shape_randnInit|].
  split; [apply keeps_shape_uniformInit | apply keeps_shape_kaiming].
Qed.

(** *** The constructors of the transposed convolution layers *)

(** X7: a constructor only ever adds to the variable store, and what it adds
    is the bias (if the configuration asks for one) and then the weight.  A
    kernel list of the wrong length ends in [log.Fatalf] with the store
    untouched; a run that fails later has added nothing or the bias alone; a
    run that returns has added the bias it holds, then the weight it
    holds. *)
Theorem X7_constructor_adds_bias_then_weight (rank : nat) (inDim outDim : Z)
    (ksizes : list Z) (cfg : ConvTransposeConfig) (vs : Path) :
  match NewConvTransposeND rank inDim outDim ksizes cfg vs with
  | (r, vs') =>
      path_device vs' = path_device vs
      /\ exists added,
           variables vs' = variables vs ++ added
           /\ match r with
              | Ok conv =>
                  length ksizes = rank
                  /\ Config conv = cfg
                  /\ (Bias cfg = true <-> Bs conv <> None)
                  /\ added
                     = match Bs conv with
                       | Some b => [("bias"%string, b)]
                       | None => []
                       end ++ [("weight"%string, Ws conv)]
              | _ =>
                  (length ksizes <> rank -> r = Fatal /\ added = [])
                  /\ (added = []
                      \/ (Bias cfg = true
                          /\ exists b, added = [("bias"%string, b)]))
              end
  end.
Proof.
  assert (Hnil : forall l : list (string * Tensor), l = l ++ [])
    by (intros; now rewrite app_nil_r).
  assert (Htwo : forall (l : list (string * Tensor)) x y,
             (l ++ [x]) ++ [y] = l ++ [x; y])
    by (intros; now rewrite <- app_assoc).
  unfold NewConvTransposeND, vbind, NewVar, vret, vpanic, vfatal.
  destruct (Nat.eqb_spec (length ksizes) rank) as [Hlen|Hlen]; cbn [negb];
    [|split; [reflexivity|]; exists []; split; [apply Hnil|]; auto].
  destruct (Bias cfg) eqn:HB;
    [destruct (Init_InitTensor (BsInit cfg) [outDim] (path_device vs))
       as [b| |] eqn:Eb|];
    try (split; [reflexivity|]; exists []; split; [apply Hnil|];
         split; [intros; contradiction | auto]);
    (destruct (int_div inDim (Groups cfg)) as [q|] eqn:Eq;
     [cbn [path_device variables];
      destruct (Init_InitTensor (WsInit cfg) _ _) as [ws| |] eqn:Ew|]);
    cbn [path_device variables Bs Ws Config];
    (split; [reflexivity|]).
  all: eexists; (split; [first [apply Htwo | reflexivity | apply Hnil]|]).
  all: cbn; intuition (eauto; congruence).
Qed.

(** X8: a group count of zero makes [inDim / cfg.Groups] panic, and the
    division comes after the bias: with a bias asked for, the constructor
    panics and leaves the freshly created bias variable in the store,
    without a weight. *)
Theorem X8_zero_groups_panics_after_the_bias (rank : nat) (inDim outDim : Z)
    (ksizes : list Z) (cfg : ConvTransposeConfig) (vs : Path) (b : Tensor) :
  length ksizes = rank ->
  Groups cfg = 0 ->
  Bias cfg = true ->
  Init_InitTensor (BsInit cfg) [outDim] (path_device vs) = Ok b ->
  NewConvTransposeND rank inDim outDim ksizes cfg vs
  = (Panic, mkPath (path_device vs) (variables vs ++ [("bias"%string, b)])).
Proof.
  intros Hlen HG HB Hb. unfold NewConvTransposeND.
  rewrite Hlen, Nat.eqb_refl. cbn [negb].
  unfold vbind, NewVar, vret, vpanic. rewrite HB, Hb, HG. reflexivity.
Qed.

Lemma X8_witness :
  NewConvTransposeND 1 4 2 [3] demo_nn.zero_groups_cfg demo_nn.store0
  = (Panic, mkPath (path_device demo_nn.store0)
              (variables demo_nn.store0
               ++ [("bias"%string, mkTensor [2] [0%float; 0%float])])).
Proof.
  apply (X8_zero_groups_panics_after_the_bias 1 4 2 [3]
           demo_nn.zero_groups_cfg demo_nn.store0);
    reflexivity.
Defined.

Lemma kaiming_bound_by_rank (dims dims' : list Z) :
  length dims = length dims' -> kaiming_bound dims = kaiming_bound dims'.
Proof. intros H. unfold kaiming_bound. now rewrite H. Qed.

(** The bound of a layer of kernel rank [rank]: [sqrt(1/2)], [sqrt(1/6)]
    and [sqrt(1/24)] for ranks 1, 2 and 3. *)
Lemma kaiming_bound_of_weight (rank : nat) (weightSize : list Z) :
  (1 <= rank <= 3)%nat -> length weightSize = (rank + 2)%nat ->
  kaiming_bound weightSize
  = PrimFloat.sqrt (1 / float64_of_Z (factorial_spec (rank + 1)))%float.
Proof.
  intros Hr Hl.
  rewrite (kaiming_bound_by_rank weightSize (demo.ones (rank + 2)))
    by (unfold demo.ones; now rewrite repeat_length).
  destruct rank as [|[|[|[|r]]]]; try lia; vm_compute; reflexivity.
Qed.

(** X9: when the weight initialiser is KaimingUniform, the weight a
    constructor returns has the shape [outDim, inDim / groups, kernel sizes]
    and its [i]-th element is the sampler's [i]-th draw for the bounds
    [-b], [b] with [b = sqrt(1 / (rank + 1)!)], that is [sqrt(1/2)],
    [sqrt(1/6)], [sqrt(1/24)] for the 1D, 2D and 3D layer: the bound does not
    depend on the channel counts or the kernel sizes. *)
Theorem X9_kaiming_weight_bound_depends_on_kernel_rank (rank : nat)
    (inDim outDim : Z) (ksizes : list Z) (cfg : ConvTransposeConfig)
    (draw : float -> float -> nat -> float) (vs vs' : Path)
    (conv : ConvTranspose) :
  (1 <= rank <= 3)%nat ->
  WsInit cfg = NewKaimingUniformInit draw ->
  NewConvTransposeND rank inDim outDim ksizes cfg vs = (Ok conv, vs') ->
  let b := PrimFloat.sqrt (1 / float64_of_Z (factorial_spec (rank + 1)))%float in
  int_div inDim (Groups cfg)
  = Some (nth 1 (shape (Ws conv)) 0)
  /\ shape (Ws conv) = outDim :: nth 1 (shape (Ws conv)) 0 :: ksizes
  /\ well_formed (Ws conv)
  /\ forall i x, elems (Ws conv) !! i = Some x -> x = draw (- b)%float b i.
Proof.
  intros Hr HW Hrun b.
  unfold NewConvTransposeND in Hrun.
  destruct (Nat.eqb_spec (length ksizes) rank) as [Hlen|Hlen];
    cbn [negb] in Hrun; [|discriminate].
  unfold vbind, vret, vpanic in Hrun.
  destruct (if Bias cfg then _ else _) as [[bs| |] vs1]; try discriminate.
  destruct (int_div inDim (Groups cfg)) as [q|]; [|discriminate].
  unfold NewVar in Hrun. rewrite HW in Hrun.
  cbn [Init_InitTensor NewKaimingUniformInit] in Hrun.
  unfold kaimingUniformInit_InitTensor in Hrun.
  destruct (MustZeros _ _) as [z| |] eqn:Ez; try discriminate.
  injection Hrun as <- _. unfold Uniform_. cbn [Ws shape elems].
  apply MustZeros_Ok in Ez as [Hs Hwf]. cbn [app] in *.
  rewrite Hs. cbn [nth].
  split; [reflexivity|]. split; [reflexivity|].
  split; [unfold well_formed in *; cbn [shape elems];
          rewrite length_imap, <- Hs; exact Hwf|].
  intros i x Hx. rewrite list_lookup_imap in Hx.
  destruct (elems z !! i); [|discriminate].
  cbv [fmap option_fmap option_map] in Hx. injection Hx as <-.
  rewrite (kaiming_bound_of_weight rank) by (cbn [length]; lia || assumption).
  reflexivity.
Qed.

Lemma X9_witness :
  exists conv vs',
    NewConvTransposeND 1 4 2 [3] demo_nn.default_cfg demo_nn.store0
    = (Ok conv, vs')
    /\ int_div 4 (Groups demo_nn.default_cfg)
       = Some (nth 1 (shape (Ws conv)) 0)
    /\ shape (Ws conv) = 2 :: nth 1 (shape (Ws conv)) 0 :: [3]
    /\ well_formed (Ws conv)
    /\ forall i x,
         elems (Ws conv) !! i = Some x ->
         x = demo.lowest
               (- PrimFloat.sqrt (1 / float64_of_Z (factorial_spec (1 + 1))))%float
               (PrimFloat.sqrt (1 / float64_of_Z (factorial_spec (1 + 1))))%float
               i.
Proof.
  eexists _, _. split; [reflexivity|].
  eapply (X9_kaiming_weight_bound_depends_on_kernel_rank 1 4 2 [3]
            demo_nn.default_cfg demo.lowest demo_nn.store0);
    [lia | reflexivity | reflexivity].
Defined.

(** X18: the default configuration builds a 1D layer.  For channel counts
    and a kernel size that are not negative, [NewConvTranspose1D] with
    [DefaultConvTranspose1DConfig] returns: it adds a bias of [outDim]
    zeroes and then a weight of shape [outDim, inDim, k] (the group count
    is 1) whose elements are the sampler's draws for the bounds
    [-sqrt(1/2)], [sqrt(1/2)]. *)
Theorem X18_default_config_builds_a_1D_layer
    (draw : float -> float -> nat -> float) (inDim outDim k : Z) (vs : Path) :
  0 <= outDim -> 0 <= inDim < 2 ^ 63 -> 0 <= k ->
  let cfg := DefaultConvTranspose1DConfig draw in
  let b := mkTensor [outDim] (repeat 0%float (Z.to_nat outDim)) in
  let bound := PrimFloat.sqrt (1 / 2)%float in
  exists ws,
    NewConvTranspose1D inDim outDim [k] cfg vs
    = (Ok (mkConvTranspose ws (Some b) cfg),
       mkPath (path_device vs)
              (variables vs ++ [("bias"%string, b); ("weight"%string, ws)]))
    /\ shape ws = [outDim; inDim; k]
    /\ length (elems ws) = Z.to_nat (outDim * inDim * k)
    /\ forall i x, elems ws !! i = Some x -> x = draw (- bound)%float bound i.
Proof.
  intros Ho Hi Hk cfg b bound.
  assert (Hq : int_div inDim 1 = Some inDim).
  { unfold int_div. cbn. rewrite Z.quot_1_r.
    rewrite wrap_int64_id by (unfold in_int64; lia). reflexivity. }
  assert (Hbound : kaiming_bound [outDim; inDim; k] = bound)
    by (vm_compute; reflexivity).
  assert (Hcount : FlattenDim [outDim; inDim; k] = outDim * inDim * k)
    by (cbn; lia).
  unfold NewConvTranspose1D, NewConvTransposeND. cbn [length Nat.eqb negb].
  unfold vbind at 1. unfold vbind at 1.
  subst cfg.
  unfold NewVar at 1. cbn [DefaultConvTranspose1DConfig Bias BsInit
    constInit_Init Init_InitTensor].
  unfold constInit_InitTensor. cbn [value NewConstInit].
  change (PrimFloat.eqb 0 0) with true. cbn match.
  unfold MustZeros.
  rewrite make_float64_nonneg by (cbn; lia).
  replace (FlattenDim [outDim]) with outDim by (cbn; lia).
  fold b. unfold vret at 1. cbn [Groups DefaultConvTranspose1DConfig]. rewrite Hq.
  unfold vbind, vret, NewVar.
  cbn [app WsInit DefaultConvTranspose1DConfig NewKaimingUniformInit
    Init_InitTensor path_device variables].
  unfold kaimingUniformInit_InitTensor, MustZeros.
  rewrite make_float64_nonneg by (rewrite Hcount; nia).
  rewrite Hbound, Hcount, <- app_assoc. cbn [app].
  eexists. split; [reflexivity|].
  unfold Uniform_. cbn [shape elems]. split; [reflexivity|].
  split; [now rewrite length_imap, repeat_length|].
  intros i x Hx. rewrite list_lookup_imap in Hx.
  destruct (repeat 0%float _ !! i); cbv [fmap option_fmap option_map] in Hx;
    [injection Hx as <-; reflexivity | discriminate].
Qed.

Lemma X18_witness :
  exists ws,
    NewConvTranspose1D 4 2 [3] (DefaultConvTranspose1DConfig demo.lowest)
      demo_nn.store0
    = (Ok (mkConvTranspose ws
             (Some (mkTensor [2] (repeat 0%float (Z.to_nat 2))))
             (DefaultConvTranspose1DConfig demo.lowest)),
       mkPath (path_device demo_nn.store0)
              (variables demo_nn.store0
               ++ [("bias"%string, mkTensor [2] (repeat 0%float (Z.to_nat 2)));
                   ("weight"%string, ws)]))
    /\ shape ws = [2; 4; 3]
    /\ length (elems ws) = Z.to_nat (2 * 4 * 3)
    /\ forall i x,
         elems ws !! i = Some x ->
         x = demo.lowest (- PrimFloat.sqrt (1 / 2))%float
                         (PrimFloat.sqrt (1 / 2))%float i.
Proof.
  apply (X18_default_config_builds_a_1D_layer demo.lowest 4 2 3 demo_nn.store0);
    lia.
Defined.

End nn_extras.

(** ** [tensor/module.go]: more on the two evaluators *)

Module tensor_extras.
Import GoNum GoNumFacts tensor demo tensor_proofs.
Local Open Scope go_scope.

(** *** The mode of the forward passes of the index-based evaluator *)

Lemma trains_BatchAccuracyForLogitsIdx_body (rt : Runtime) (m : ModuleT)
    (xs : Tensor) (d : gotch.Device) (imagesTs labelsTs : Tensor)
    (start size : Z) (s c : float) :
  keeps_frame train_mode_call false
    (BatchAccuracyForLogitsIdx_body rt m xs d imagesTs labelsTs start size s c).
Proof.
  unfold BatchAccuracyForLogitsIdx_body, Idx.
  apply keeps_bind; [apply keeps_MustNarrow | intros bI].
  apply keeps_bind; [apply keeps_MustNarrow | intros bL].
  apply keeps_bind; [apply keeps_MustTo | intros bI'].
  apply keeps_bind; [apply keeps_MustTo | intros bL'].
  apply keeps_bind; [apply keeps_ForwardT; reflexivity | intros logits].
  apply keeps_bind; [apply keeps_AccuracyForLogits; intros; exact I | intros acc].
  destruct (Values acc); [apply keeps_panic|].
  apply keeps_bind; [apply keeps_MustSize0 | intros n].
  apply keeps_bind; [apply keeps_MustDrop | intros _].
  apply keeps_bind; [apply keeps_MustDrop | intros _].
  apply keeps_bind; [apply keeps_MustDrop | intros _].
  apply keeps_ret.
Qed.

Lemma trains_BatchAccuracyForLogitsIdx_loop (trips : nat) (rt : Runtime)
    (m : ModuleT) (xs : Tensor) (d : gotch.Device) (imagesTs labelsTs : Tensor)
    (samples batchSize batchIndex : Z) (s c : float) :
  keeps_frame train_mode_call false
    (BatchAccuracyForLogitsIdx_loop trips rt m xs d imagesTs labelsTs
       samples batchSize batchIndex s c).
Proof.
  revert batchIndex s c. induction trips as [|trips IH]; intros batchIndex s c.
  - apply keeps_ret.
  - cbn [BatchAccuracyForLogitsIdx_loop]. destruct (_ <? _); [apply keeps_ret|].
    apply keeps_bind; [apply trains_BatchAccuracyForLogitsIdx_body|].
    intros s'. apply IH.
Qed.

Lemma unguarded_keeps_log {A} (allowed : call -> Prop)
    (rest : NoGradGuard -> M A) :
  (forall g, keeps_frame allowed false (rest g)) ->
  forall w, match bind NewNoGradGuard rest w with
            | Ret _ w' | Panicked w' =>
                exists new, calls w' = calls w ++ new /\ Forall allowed new
            | OutOfFuel => False
            end.
Proof.
  intros Hr w.
  unfold bind, NewNoGradGuard, MustGradSetEnabled, bind, ret. cbn.
  specialize (Hr (mkNoGradGuard (grad_enabled w))
                 (mkWorld false (live w) (next_handle w) (calls w))).
  destruct (rest _ _) as [a w1|w1|]; try discriminate; now destruct Hr.
Qed.

Lemma trains_BatchAccuracyForLogitsIdx (rt : Runtime) (m : ModuleT)
    (xs ys : Tensor) (d : gotch.Device) (batchSize : Z) (w : World) :
  match BatchAccuracyForLogitsIdx rt m xs ys d batchSize w with
  | Ret _ w' | Panicked w' =>
      exists new, calls w' = calls w ++ new /\ Forall train_mode_call new
  | OutOfFuel => False
  end.
Proof.
  assert (H : match BatchAccuracyForLogitsIdx_sums rt m xs ys d batchSize w with
              | Ret _ w' | Panicked w' =>
                  exists new, calls w' = calls w ++ new
                              /\ Forall train_mode_call new
              | OutOfFuel => False
              end).
  { unfold BatchAccuracyForLogitsIdx_sums.
    apply (unguarded_keeps_log train_mode_call). intros _.
    apply keeps_bind; [apply keeps_MustSize0 | intros n].
    apply keeps_bind; [apply keeps_MustRandperm | intros index].
    apply keeps_bind; [apply keeps_MustIndexSelect | intros iT].
    apply keeps_bind; [apply keeps_MustIndexSelect | intros lT].
    destruct (int_div n batchSize); [|apply keeps_panic].
    apply keeps_bind; [apply trains_BatchAccuracyForLogitsIdx_loop | intros s].
    apply keeps_bind; [apply keeps_MustDrop | intros _].
    apply keeps_bind; [apply keeps_MustDrop | intros _].
    apply keeps_ret. }
  unfold BatchAccuracyForLogitsIdx, bind.
  destruct (BatchAccuracyForLogitsIdx_sums _ _ _ _ _ _ _); auto.
Qed.

(** X10: every forward pass of [BatchAccuracyForLogitsIdx] is a call of
    [ForwardT] with [train = true]: so on every run, returning or panicking,
    and on [N] rows in batches of [B > 0] there are exactly [N / B] of them.
    (The iterator-based evaluator passes [false].) *)
Theorem X10_idx_evaluator_runs_the_module_in_training_mode :
  (forall rt m xs ys d batchSize w,
     match BatchAccuracyForLogitsIdx rt m xs ys d batchSize w with
     | Ret _ w' | Panicked w' =>
         exists new, calls w' = calls w ++ new /\ Forall train_mode_call new
     | OutOfFuel => False
     end)
  /\ (forall rt m d xs ys (B N : nat) xrows yrows w,
     content xs = Rows xrows -> content ys = Rows yrows ->
     length xrows = N -> length yrows = N ->
     (0 < B)%nat -> Z.of_nat N < 2 ^ 63 ->
     randperm rt N ≡ₚ seq 0 N ->
     exists v w' new,
       BatchAccuracyForLogitsIdx rt m xs ys d (Z.of_nat B) w = Ret v w'
       /\ calls w' = calls w ++ new
       /\ forward_modes new = repeat true (N / B)).
Proof.
  split.
  - intros. apply trains_BatchAccuracyForLogitsIdx.
  - intros rt m d xs ys B N xrows yrows w Hx Hy Lx Ly HB HN Hperm.
    destruct (BatchAccuracyForLogitsIdx_run rt m d xs ys B N xrows yrows w
                Hx Hy Lx Ly HB HN Hperm)
      as (w1 & new & Hrun & _ & Hcalls & _ & Hmodes & _).
    eexists _, w1, new. eauto.
Qed.

Lemma X10_witness :
  exists v w' new,
    BatchAccuracyForLogitsIdx reversing_runtime echo_module xs10 ys10
      (gotch.Cuda 0) (Z.of_nat 3) world0 = Ret v w'
    /\ calls w' = calls world0 ++ new
    /\ forward_modes new = repeat true (10 / 3)%nat.
Proof.
  apply (proj2 X10_idx_evaluator_runs_the_module_in_training_mode
           reversing_runtime echo_module (gotch.Cuda 0) xs10 ys10 3%nat 10%nat
           (batch_rows (rows_upto 10)) (batch_rows (rows_upto 10)));
    try reflexivity; try (cbn; lia).
  apply (bool_decide_unpack _). vm_compute. exact I.
Defined.

(** *** Batch sizes that are not positive *)

Section Edges.

Variable rt : Runtime.
Variable m : ModuleT.
Variable d : gotch.Device.

(** The evaluator up to the division [samples / batchSize]: the guard is
    acquired and the permutation and the two shuffled Handles are
    allocated. *)
Lemma BatchAccuracyForLogitsIdx_prologue {A} (xs ys : Tensor) (N : nat)
    (xrows yrows : list value) (w : World)
    (k : Tensor -> Tensor -> Z -> M A) :
  content xs = Rows xrows -> content ys = Rows yrows ->
  length xrows = N -> length yrows = N ->
  randperm rt N ≡ₚ seq 0 N ->
  let w0 := mkWorld false (live w) (next_handle w) (calls w) in
  (NewNoGradGuard ;;
   totalSize <- MustSize0 xs ;;
   index <- MustRandperm rt totalSize gotch.Int64 gotch.CPU ;;
   imagesTs <- MustIndexSelect xs 0 index false ;;
   labelsTs <- MustIndexSelect ys 0 index false ;;
   k imagesTs labelsTs totalSize) w
  = k (mkTensor (Pos.succ (next_handle w)) (device xs)
                (Rows (rows_at (randperm rt N) xrows)))
      (mkTensor (Pos.succ (Pos.succ (next_handle w))) (device ys)
                (Rows (rows_at (randperm rt N) yrows)))
      (Z.of_nat N)
      (allocated (allocated (allocated w0))).
Proof.
  intros Hx Hy Lx Ly Hperm w0.
  pose proof (permutation_in_range _ _ Hperm) as Hrange.
  rewrite (bind_run _ _ _ _ _ (NewNoGradGuard_run w)).
  erewrite bind_run by (apply MustSize0_run; exact Hx).
  rewrite Lx.
  erewrite bind_run by (apply MustRandperm_run).
  rewrite Nat2Z.id.
  erewrite bind_run
    by (eapply MustIndexSelect_run;
        [exact Hx | apply index_positions_of_nats | rewrite Lx; exact Hrange]).
  erewrite bind_run
    by (eapply MustIndexSelect_run;
        [exact Hy | apply index_positions_of_nats | rewrite Ly; exact Hrange]).
  reflexivity.
Qed.

(** X11: a batch size of 0 makes [samples / batchSize] panic.  The panic
    comes after the guard was acquired and after the permutation and the two
    shuffled Handles were allocated: the run ends with gradient tracking off,
    three more live Handles and no forward pass. *)
Theorem X11_idx_evaluator_panics_on_batch_size_zero (xs ys : Tensor) (N : nat)
    (xrows yrows : list value) (w : World) :
  content xs = Rows xrows -> content ys = Rows yrows ->
  length xrows = N -> length yrows = N ->
  randperm rt N ≡ₚ seq 0 N ->
  BatchAccuracyForLogitsIdx rt m xs ys d 0 w
  = Panicked (allocated (allocated (allocated
                (mkWorld false (live w) (next_handle w) (calls w))))).
Proof.
  intros Hx Hy Lx Ly Hperm.
  unfold BatchAccuracyForLogitsIdx, BatchAccuracyForLogitsIdx_sums.
  unfold bind at 1.
  rewrite (BatchAccuracyForLogitsIdx_prologue xs ys N xrows yrows w
             (fun imagesTs labelsTs totalSize =>
                match int_div totalSize 0 with
                | Some batches =>
                    s <- BatchAccuracyForLogitsIdx_loop (Z.to_nat batches) rt m
                           xs d imagesTs labelsTs totalSize 0 0 0%float 0%float ;;
                    MustDrop imagesTs ;; MustDrop labelsTs ;; ret s
                | None => panic
                end) Hx Hy Lx Ly Hperm).
  reflexivity.
Qed.

(** X12: a negative batch size is no error: the trip count
    [samples / batchSize] is not positive, the loop body never runs, no
    forward pass is made and the evaluator returns [0/0 = NaN]. *)
Theorem X12_idx_evaluator_returns_nan_on_negative_batch_size (xs ys : Tensor)
    (N : nat) (batchSize : Z) (xrows yrows : list value) (w : World) :
  content xs = Rows xrows -> content ys = Rows yrows ->
  length xrows = N -> length yrows = N ->
  Z.of_nat N < 2 ^ 63 ->
  randperm rt N ≡ₚ seq 0 N ->
  batchSize < 0 ->
  exists w',
    BatchAccuracyForLogitsIdx rt m xs ys d batchSize w = Ret nan w'
    /\ calls w' = calls w.
Proof.
  intros Hx Hy Lx Ly HN Hperm HB.
  assert (Hq : exists q, int_div (Z.of_nat N) batchSize = Some q /\ Z.to_nat q = 0%nat).
  { unfold int_div. destruct (Z.eqb_spec batchSize 0); [lia|].
    eexists. split; [reflexivity|].
    assert (Hle : - Z.of_nat N <= Z.quot (Z.of_nat N) batchSize <= 0).
    { replace batchSize with (- (- batchSize)) by lia.
      rewrite Z.quot_opp_r by lia.
      pose proof (Z.quot_pos (Z.of_nat N) (- batchSize) ltac:(lia) ltac:(lia)).
      assert (Z.quot (Z.of_nat N) (- batchSize) <= Z.of_nat N).
      { apply Z.quot_le_upper_bound; nia. }
      lia. }
    rewrite wrap_int64_id by (unfold in_int64; lia). lia. }
  destruct Hq as (q & Hq & Hzero).
  unfold BatchAccuracyForLogitsIdx, BatchAccuracyForLogitsIdx_sums.
  unfold bind at 1.
  rewrite (BatchAccuracyForLogitsIdx_prologue xs ys N xrows yrows w
             (fun imagesTs labelsTs totalSize =>
                match int_div totalSize batchSize with
                | Some batches =>
                    s <- BatchAccuracyForLogitsIdx_loop (Z.to_nat batches) rt m
                           xs d imagesTs labelsTs totalSize batchSize 0
                           0%float 0%float ;;
                    MustDrop imagesTs ;; MustDrop labelsTs ;; ret s
                | None => panic
                end) Hx Hy Lx Ly Hperm).
  rewrite Hq, Hzero. cbn. eexists. split; reflexivity.
Qed.

End Edges.

Lemma X11_witness :
  BatchAccuracyForLogitsIdx reversing_runtime echo_module xs4 ys4
    (gotch.Cuda 0) 0 world0
  = Panicked (allocated (allocated (allocated
                (mkWorld false (live world0) (next_handle world0)
                         (calls world0))))).
Proof.
  apply (X11_idx_evaluator_panics_on_batch_size_zero reversing_runtime
           echo_module (gotch.Cuda 0) xs4 ys4 4
           [Int 0; Int 1; Int 2; Int 3] [Int 0; Int 1; Int 2; Int 0]);
    try reflexivity.
  apply (bool_decide_unpack _). vm_compute. exact I.
Defined.

Lemma X12_witness :
  exists w',
    BatchAccuracyForLogitsIdx reversing_runtime echo_module xs4 ys4
      (gotch.Cuda 0) (-2) world0 = Ret nan w'
    /\ calls w' = calls world0.
Proof.
  apply (X12_idx_evaluator_returns_nan_on_negative_batch_size reversing_runtime
           echo_module (gotch.Cuda 0) xs4 ys4 4 (-2)
           [Int 0; Int 1; Int 2; Int 3] [Int 0; Int 1; Int 2; Int 0]);
    try reflexivity; try lia.
  apply (bool_decide_unpack _). vm_compute. exact I.
Defined.

(** *** What stays live after a run *)

Lemma leaked_refl (w : World) : leaked w w [].
Proof.
  unfold leaked. cbn. rewrite (right_id_L ∅ (∪)).
  repeat split; [constructor | constructor | lia].
Qed.

Lemma leaked_wf (w w' : World) (hs : list handle) :
  wf_world w -> leaked w w' hs -> wf_world w'.
Proof.
  intros Hwf (Hlive & _ & Hin & Hle) h Hh.
  rewrite Hlive in Hh. apply elem_of_union in Hh as [Hh|Hh].
  - specialize (Hwf h Hh). lia.
  - apply elem_of_list_to_set in Hh.
    rewrite Forall_forall in Hin. specialize (Hin h Hh). lia.
Qed.

Lemma leaked_trans (w w1 w2 : World) (hs1 hs2 : list handle) :
  leaked w w1 hs1 -> leaked w1 w2 hs2 -> leaked w w2 (hs1 ++ hs2).
Proof.
  intros (Hl1 & Hd1 & Hin1 & Hle1) (Hl2 & Hd2 & Hin2 & Hle2).
  rewrite Forall_forall in Hin1, Hin2.
  unfold leaked. split; [|split; [|split]].
  - rewrite Hl2, Hl1, list_to_set_app_L. now rewrite (assoc_L (∪)).
  - apply NoDup_app. split; [exact Hd1|]. split; [|exact Hd2].
    intros h H1 H2. specialize (Hin1 h H1). specialize (Hin2 h H2). lia.
  - apply Forall_app. split; apply Forall_forall; intros h Hh.
    + specialize (Hin1 h Hh). lia.
    + specialize (Hin2 h Hh). lia.
  - lia.
Qed.

Lemma leaked_size (w w' : World) (hs : list handle) :
  wf_world w -> leaked w w' hs ->
  size (live w') = (size (live w) + length hs)%nat.
Proof.
  intros Hwf (Hlive & Hd & Hin & _).
  rewrite Hlive, size_union, size_list_to_set by
    (first [exact Hd
           | intros h H1 H2; apply elem_of_list_to_set in H2;
             rewrite Forall_forall in Hin; specialize (Hin h H2);
             specialize (Hwf h H1); lia]).
  reflexivity.
Qed.

Lemma forward_results_app (a b : list call) :
  forward_results (a ++ b) = forward_results a ++ forward_results b.
Proof. apply omap_app. Qed.

Lemma kept_results_app (rt : Runtime) (a b : list call) :
  kept_results rt (a ++ b) = kept_results rt a ++ kept_results rt b.
Proof.
  unfold kept_results. destruct (accuracy_consumes rt); [reflexivity|].
  apply forward_results_app.
Qed.

Lemma kept_results_length (rt : Runtime) (new : list call) :
  length (kept_results rt new)
  = if accuracy_consumes rt then 0%nat else length (forward_results new).
Proof. unfold kept_results. now destruct (accuracy_consumes rt). Qed.

Section Leaks.

Variable rt : Runtime.
Variable m : ModuleT.
Variable d : gotch.Device.

(** One pass of the body of the index-based evaluator leaves nothing live
    but the result of its forward pass, and that only when the accuracy
    primitive has not consumed it. *)
Lemma BatchAccuracyForLogitsIdx_body_leaks (xs imagesTs labelsTs : Tensor)
    (B k : nat) (xrows irows lrows : list value) (s c : float) (w : World) :
  wf_world w ->
  content xs = Rows xrows ->
  content imagesTs = Rows irows -> content labelsTs = Rows lrows ->
  (k * B + B <= length irows)%nat -> (k * B + B <= length lrows)%nat ->
  Z.of_nat (length irows) < 2 ^ 63 ->
  exists sums w' new,
    BatchAccuracyForLogitsIdx_body rt m xs d imagesTs labelsTs
      (Z.of_nat (k * B)) (Z.of_nat B) s c w = Ret sums w'
    /\ calls w' = calls w ++ new
    /\ length (forward_results new) = 1%nat
    /\ leaked w w' (kept_results rt new).
Proof.
  intros Hwf Hx Hi Hl Fi Fl HN.
  unfold BatchAccuracyForLogitsIdx_body, Idx, MustNarrow. cbn [Start End].
  rewrite int_add_id by (unfold in_int64; lia).
  replace (Z.of_nat (k * B) + Z.of_nat B - Z.of_nat (k * B)) with (Z.of_nat B)
    by lia.
  unfold AccuracyForLogits, bind, MustSize0. rewrite Hx, Hi, Hl.
  rewrite !narrow_rows_chunk by assumption.
  unfold kept_results.
  destruct (accuracy_consumes rt); cbn;
    eexists _, _, [_; _]; (split; [reflexivity|]); cbn; rewrite <- app_assoc;
    (split; [reflexivity|]); (split; [reflexivity|]);
    unfold leaked; cbn; (split; [|split; [|split]]);
    try (apply set_eq; intros h; specialize (Hwf h); set_unfold; intuition lia);
    try (repeat constructor; lia);
    first [apply NoDup_nil_2 | apply NoDup_singleton].
Qed.

Lemma BatchAccuracyForLogitsIdx_loop_leaks (xs imagesTs labelsTs : Tensor)
    (B N : nat) (xrows irows lrows : list value) :
  content xs = Rows xrows ->
  content imagesTs = Rows irows -> content labelsTs = Rows lrows ->
  length irows = N -> length lrows = N ->
  (0 < B)%nat -> Z.of_nat N < 2 ^ 63 ->
  forall (r k : nat) (s c : float) (w : World),
    wf_world w ->
    ((k + r) * B <= N)%nat ->
    exists sums w' new,
      BatchAccuracyForLogitsIdx_loop r rt m xs d imagesTs labelsTs
        (Z.of_nat N) (Z.of_nat B) (Z.of_nat k) s c w = Ret sums w'
      /\ calls w' = calls w ++ new
      /\ length (forward_results new) = r
      /\ leaked w w' (kept_results rt new).
Proof.
  intros Hx Hi Hl Li Ll HB HN.
  induction r as [|r IH]; intros k s c w Hwf Hfit;
    cbn [BatchAccuracyForLogitsIdx_loop].
  - exists (s, c), w, []. cbn. rewrite app_nil_r.
    do 3 (split; [reflexivity|]).
    unfold kept_results. destruct (accuracy_consumes rt); apply leaked_refl.
  - rewrite (start_of_batch B k N) by nia.
    rewrite int_sub_id by (unfold in_int64; lia).
    destruct (Z.ltb_spec (Z.of_nat N - Z.of_nat (k * B)) (Z.of_nat B)); [nia|].
    rewrite int_add_id by (unfold in_int64; nia).
    replace (Z.of_nat k + 1) with (Z.of_nat (S k)) by lia.
    unfold bind at 1.
    destruct (BatchAccuracyForLogitsIdx_body_leaks xs imagesTs labelsTs B k
                xrows irows lrows s c w Hwf Hx Hi Hl
                ltac:(nia) ltac:(nia) ltac:(lia))
      as (s2 & w2 & new2 & Hrun & Hcalls & Hone & Hleak).
    rewrite Hrun.
    destruct (IH (S k) (fst s2) (snd s2) w2 (leaked_wf _ _ _ Hwf Hleak)
                ltac:(nia))
      as (s3 & w3 & new & Hloop & Hcalls3 & Hlen & Hleak3).
    exists s3, w3, (new2 ++ new).
    split; [exact Hloop|].
    split; [rewrite Hcalls3, Hcalls; now rewrite <- app_assoc|].
    rewrite forward_results_app, length_app, Hone, Hlen.
    split; [reflexivity|].
    rewrite kept_results_app. eapply leaked_trans; eassumption.
Qed.

(** X14: the index-based evaluator never releases its permutation index.
    On [N] rows in batches of [B > 0] it ends with every resource live that
    was live before and with the index live in addition; the two shuffled
    copies and the per-batch slices, copies and accuracy scalars are all
    released.  The results of the forward passes, which the evaluator
    itself never drops, are live as well exactly when the accuracy
    primitive leaves its receiver live: the run leaves [1] resource more
    than it found on a runtime that consumes them and [1 + N / B] on one
    that does not. *)
Theorem X14_idx_evaluator_never_releases_the_index (xs ys : Tensor)
    (B N : nat) (xrows yrows : list value) (w : World) :
  wf_world w ->
  content xs = Rows xrows -> content ys = Rows yrows ->
  length xrows = N -> length yrows = N ->
  (0 < B)%nat -> Z.of_nat N < 2 ^ 63 ->
  randperm rt N ≡ₚ seq 0 N ->
  exists v w' new,
    BatchAccuracyForLogitsIdx rt m xs ys d (Z.of_nat B) w = Ret v w'
    /\ calls w' = calls w ++ new
    /\ (next_handle w ∉ live w) /\ (next_handle w ∈ live w')
    /\ live w' = live w ∪ {[ next_handle w ]} ∪ list_to_set (kept_results rt new)
    /\ size (live w')
       = (size (live w) + 1 + (if accuracy_consumes rt then 0 else N / B))%nat.
Proof.
  intros Hwf Hx Hy Lx Ly HB HN Hperm.
  pose proof (permutation_in_range _ _ Hperm) as Hrange.
  assert (Hlen : length (randperm rt N) = N)
    by (rewrite Hperm; apply length_seq).
  unfold BatchAccuracyForLogitsIdx, BatchAccuracyForLogitsIdx_sums.
  unfold bind at 1.
  rewrite (BatchAccuracyForLogitsIdx_prologue rt xs ys N xrows yrows w
             (fun imagesTs labelsTs totalSize =>
                match int_div totalSize (Z.of_nat B) with
                | Some batches =>
                    s <- BatchAccuracyForLogitsIdx_loop (Z.to_nat batches) rt m
                           xs d imagesTs labelsTs totalSize (Z.of_nat B) 0
                           0%float 0%float ;;
                    MustDrop imagesTs ;; MustDrop labelsTs ;; ret s
                | None => panic
                end) Hx Hy Lx Ly Hperm).
  rewrite int_div_nat by assumption.
  rewrite Nat2Z.id.
  set (w0 := mkWorld false (live w) (next_handle w) (calls w)).
  assert (Hwf3 : wf_world (allocated (allocated (allocated w0)))).
  { intros h. specialize (Hwf h). cbn. set_unfold. intuition lia. }
  match goal with
  | |- context [bind (BatchAccuracyForLogitsIdx_loop _ rt m xs d ?iT ?lT _ _ _ _ _)
                       _ ?w1] =>
      destruct (BatchAccuracyForLogitsIdx_loop_leaks xs iT lT B N xrows
                  (rows_at (randperm rt N) xrows) (rows_at (randperm rt N) yrows)
                  Hx eq_refl eq_refl
                  ltac:(rewrite rows_at_length; [exact Hlen | rewrite Lx; exact Hrange])
                  ltac:(rewrite rows_at_length; [exact Hlen | rewrite Ly; exact Hrange])
                  HB HN (N / B) 0 0%float 0%float w1 Hwf3
                  ltac:(destruct (no_batch_left B N HB); lia))
        as (s3 & w3 & new & Hloop & Hcalls3 & Hcount & Hleak)
  end.
  change (Z.of_nat 0) with 0 in Hloop.
  erewrite bind_run by (exact Hloop).
  cbn. eexists _, _, new. split; [reflexivity|]. cbn.
  split; [exact Hcalls3|].
  destruct Hleak as (Hlive & Hd & Hin & Hle).
  rewrite Forall_forall in Hin. cbn in Hlive, Hin, Hle.
  assert (Heq : live w3 ∖ {[Pos.succ (next_handle w)]}
                  ∖ {[Pos.succ (Pos.succ (next_handle w))]}
                = live w ∪ {[next_handle w]}
                  ∪ list_to_set (kept_results rt new)).
  { rewrite Hlive. apply set_eq. intros h. specialize (Hwf h).
    specialize (Hin h). set_unfold. intuition lia. }
  split; [intros Hh; specialize (Hwf _ Hh); lia|].
  split.
  { match goal with
    | |- _ ∈ ?X =>
        assert (HX : X = live w ∪ {[next_handle w]}
                         ∪ list_to_set (kept_results rt new)) by exact Heq;
        rewrite HX
    end.
    set_unfold. auto. }
  split; [exact Heq|].
  etrans; [exact (f_equal size Heq)|].
  rewrite size_union, size_union, size_singleton, size_list_to_set,
    kept_results_length, Hcount;
    [reflexivity | exact Hd | | ].
  - intros h H1 H2. specialize (Hwf h). set_unfold. subst h. intuition lia.
  - intros h H1 H2. specialize (Hwf h). specialize (Hin h).
    set_unfold. intuition lia.
Qed.

End Leaks.

Lemma X14_witness :
  exists v w' new,
    BatchAccuracyForLogitsIdx keeping_runtime echo_module xs10 ys10
      (gotch.Cuda 0) (Z.of_nat 3) world0 = Ret v w'
    /\ calls w' = calls world0 ++ new
    /\ (next_handle world0 ∉ live world0) /\ (next_handle world0 ∈ live w')
    /\ live w' = live world0 ∪ {[ next_handle world0 ]}
                 ∪ list_to_set (kept_results keeping_runtime new)
    /\ size (live w')
       = (size (live world0) + 1
          + (if accuracy_consumes keeping_runtime then 0 else 10 / 3))%nat.
Proof.
  apply (X14_idx_evaluator_never_releases_the_index keeping_runtime
           echo_module (gotch.Cuda 0) xs10 ys10 3%nat 10%nat
           (batch_rows (rows_upto 10)) (batch_rows (rows_upto 10)));
    try reflexivity; try (cbn; lia).
  - intros h Hh. cbn in *. set_unfold. intuition lia.
  - apply (bool_decide_unpack _). vm_compute. exact I.
Defined.

(** *** The rows the index-based evaluator sees *)

Lemma flat_chunks (B n : nat) (rows : list value) :
  flat_map (fun j => chunk B j rows) (seq 0 n) = take (n * B) rows.
Proof.
  induction n as [|n IH]; [reflexivity|].
  rewrite seq_S, flat_map_app, IH. cbn [flat_map]. rewrite app_nil_r.
  unfold chunk. rewrite take_take_drop. f_equal. lia.
Qed.

Lemma flat_batches (B k r : nat) (rows : list value) :
  flat_map batch_rows (map (fun j => Rows (chunk B j rows)) (seq k r))
  = flat_map (fun j => chunk B j rows) (seq k r).
Proof.
  induction (seq k r) as [|j js IH]; [reflexivity|].
  cbn. now rewrite IH.
Qed.

Lemma rows_at_cons (p : nat) (ps : list nat) (rows : list value) (x : value) :
  rows !! p = Some x -> rows_at (p :: ps) rows = x :: rows_at ps rows.
Proof. intros H. unfold rows_at. cbn. now rewrite H. Qed.

Lemma rows_at_seq (pre rows : list value) :
  rows_at (seq (length pre) (length rows)) (pre ++ rows) = rows.
Proof.
  revert pre. induction rows as [|x rows IH]; intros pre; [reflexivity|].
  cbn [length seq].
  rewrite (rows_at_cons _ _ _ x) by (apply list_lookup_middle; reflexivity).
  f_equal.
  specialize (IH (pre ++ [x])).
  rewrite length_app, <- app_assoc in IH. cbn in IH.
  rewrite Nat.add_1_r in IH. exact IH.
Qed.

Lemma rows_at_permutation (ps : list nat) (rows : list value) :
  ps ≡ₚ seq 0 (length rows) -> rows_at ps rows ≡ₚ rows.
Proof.
  intros H. unfold rows_at. rewrite H.
  exact (eq_ind _ (fun l => l ≡ₚ rows) (reflexivity rows) _
           (eq_sym (rows_at_seq [] rows))).
Qed.

Section Coverage.

Variable rt : Runtime.
Variable m : ModuleT.
Variable d : gotch.Device.

(** X13: the rows the index-based evaluator pushes through the module are,
    batch after batch, the first [N / B * B] rows of the shuffled data: no
    row of [xs] is evaluated twice, the last [N mod B] shuffled rows are
    never evaluated, and when [B] divides [N] every row of [xs] is evaluated
    exactly once.  The labels handed to the accuracy primitive are the same
    prefix of the labels under the same shuffle. *)
Theorem X13_idx_evaluator_sees_a_prefix_of_the_shuffle (xs ys : Tensor)
    (B N : nat) (xrows yrows : list value) (w : World) :
  content xs = Rows xrows -> content ys = Rows yrows ->
  length xrows = N -> length yrows = N ->
  (0 < B)%nat -> Z.of_nat N < 2 ^ 63 ->
  randperm rt N ≡ₚ seq 0 N ->
  exists v w' new,
    BatchAccuracyForLogitsIdx rt m xs ys d (Z.of_nat B) w = Ret v w'
    /\ calls w' = calls w ++ new
    /\ flat_map batch_rows (forward_inputs new)
       = take (N / B * B)%nat (rows_at (randperm rt N) xrows)
    /\ flat_map batch_rows (accuracy_targets new)
       = take (N / B * B)%nat (rows_at (randperm rt N) yrows)
    /\ flat_map batch_rows (forward_inputs new) ⊆+ xrows
    /\ ((N mod B = 0)%nat -> flat_map batch_rows (forward_inputs new) ≡ₚ xrows).
Proof.
  intros Hx Hy Lx Ly HB HN Hperm.
  destruct (BatchAccuracyForLogitsIdx_run rt m d xs ys B N xrows yrows w
              Hx Hy Lx Ly HB HN Hperm)
    as (w1 & new & Hrun & _ & Hcalls & Hf & _ & Ha).
  assert (Hshuffle : rows_at (randperm rt N) xrows ≡ₚ xrows)
    by (apply rows_at_permutation; rewrite Lx; exact Hperm).
  assert (Hin : flat_map batch_rows (forward_inputs new)
                = take (N / B * B)%nat (rows_at (randperm rt N) xrows))
    by (rewrite Hf, flat_batches; apply flat_chunks).
  eexists _, w1, new. split; [exact Hrun|]. split; [exact Hcalls|].
  split; [exact Hin|].
  split; [rewrite Ha, flat_batches; apply flat_chunks|].
  rewrite Hin. split.
  - rewrite <- Hshuffle at 2. apply submseteq_take.
  - intros Hdiv. rewrite take_ge; [exact Hshuffle|].
    rewrite Hshuffle, Lx. pose proof (Nat.div_mod_eq N B). nia.
Qed.

(** X16: the value [BatchAccuracyForLogits] returns.  On [N] rows in batches
    of [B > 0] each of the [N / B] batches adds its accuracy times [B], its
    own row count, to one sum and [B] to the other; the result is the
    quotient of the two sums, and the gradient mode is the one of the
    call. *)
Theorem X16_iterator_evaluator_weighs_by_batch_size (xs ys : Tensor)
    (B N : nat) (xrows yrows : list value) (fuel : nat) (w : World) :
  content xs = Rows xrows -> content ys = Rows yrows ->
  length xrows = N -> length yrows = N ->
  (0 < B)%nat -> Z.of_nat N < 2 ^ 63 -> (N / B < fuel)%nat ->
  exists w',
    BatchAccuracyForLogits fuel rt m xs ys d (Z.of_nat B) w
    = Ret (let s := weighted_sums (float64_of_Z (Z.of_nat B))
                      (map (batch_accuracy rt m false B xrows yrows)
                           (seq 0 (N / B))) (0%float, 0%float)
           in (fst s / snd s)%float) w'
    /\ grad_enabled w' = grad_enabled w.
Proof.
  intros Hx Hy Lx Ly HB HN Hfuel.
  destruct (BatchAccuracyForLogits_run rt m d xs ys B N xrows yrows fuel w
              Hx Hy Lx Ly HB HN Hfuel)
    as (w1 & new & Hrun & Hg & _).
  exists w1. split; assumption.
Qed.

(** X17: the value [BatchAccuracyForLogitsIdx] returns.  Each of the
    [N / B] batches of the shuffled rows adds its accuracy times [N], the
    row count of the whole of [xs], to one sum and [N] to the other; the
    result is the quotient of the two sums. *)
Theorem X17_idx_evaluator_weighs_by_total_size (xs ys : Tensor)
    (B N : nat) (xrows yrows : list value) (w : World) :
  content xs = Rows xrows -> content ys = Rows yrows ->
  length xrows = N -> length yrows = N ->
  (0 < B)%nat -> Z.of_nat N < 2 ^ 63 ->
  randperm rt N ≡ₚ seq 0 N ->
  exists w',
    BatchAccuracyForLogitsIdx rt m xs ys d (Z.of_nat B) w
    = Ret (let s := weighted_sums (float64_of_Z (Z.of_nat N))
                      (map (batch_accuracy rt m true B
                              (rows_at (randperm rt N) xrows)
                              (rows_at (randperm rt N) yrows))
                           (seq 0 (N / B))) (0%float, 0%float)
           in (fst s / snd s)%float) w'.
Proof.
  intros Hx Hy Lx Ly HB HN Hperm.
  destruct (BatchAccuracyForLogitsIdx_run rt m d xs ys B N xrows yrows w
              Hx Hy Lx Ly HB HN Hperm)
    as (w1 & new & Hrun & _).
  exists w1. exact Hrun.
Qed.

(** *** What the iterator-based evaluator leaves behind *)

(** The body on the item the iterator has just allocated: the two slices
    are released by the moves to the device, the copies and the accuracy
    scalar by the drops that end the body. *)
Lemma BatchAccuracyForLogits_body_leaks (dI dL : gotch.Device)
    (rs ls : list value) (s c : float) (w : World) :
  wf_world w ->
  exists sums w' new,
    BatchAccuracyForLogits_body rt m d
      (mkIter2Item (mkTensor (next_handle w) dI (Rows rs))
                   (mkTensor (Pos.succ (next_handle w)) dL (Rows ls)))
      s c (allocated (allocated w)) = Ret sums w'
    /\ calls w' = calls w ++ new
    /\ length (forward_results new) = 1%nat
    /\ leaked w w' (kept_results rt new).
Proof.
  intros Hwf.
  unfold BatchAccuracyForLogits_body, AccuracyForLogits, bind, MustSize0.
  unfold kept_results.
  destruct (accuracy_consumes rt); cbn;
    eexists _, _, [_; _]; (split; [reflexivity|]); cbn; rewrite <- app_assoc;
    (split; [reflexivity|]); (split; [reflexivity|]);
    unfold leaked; cbn; (split; [|split; [|split]]);
    try (apply set_eq; intros h; specialize (Hwf h); set_unfold; intuition lia);
    try (repeat constructor; lia);
    first [apply NoDup_nil_2 | apply NoDup_singleton].
Qed.

Lemma BatchAccuracyForLogits_loop_leaks (xs ys : Tensor) (B N : nat)
    (xrows yrows : list value) :
  content xs = Rows xrows -> content ys = Rows yrows ->
  length xrows = N -> length yrows = N ->
  (0 < B)%nat -> Z.of_nat N < 2 ^ 63 ->
  forall (r k fuel : nat) (s c : float) (w : World),
    wf_world w ->
    (k + r = N / B)%nat -> (r < fuel)%nat ->
    exists sums w' new,
      BatchAccuracyForLogits_loop fuel rt m d
        (mkIter2 xs ys (Z.of_nat k) (Z.of_nat B) (Z.of_nat N)) s c w
      = Ret sums w'
      /\ calls w' = calls w ++ new
      /\ length (forward_results new) = r
      /\ leaked w w' (kept_results rt new).
Proof.
  intros Hx Hy Lx Ly HB HN.
  induction r as [|r IH]; intros k fuel s c w Hwf Hk Hfuel;
    (destruct fuel as [|fuel]; [lia|]); cbn [BatchAccuracyForLogits_loop];
    unfold bind at 1.
  - destruct (no_batch_left B N HB) as [Hle Hlt].
    rewrite Iter2_Next_none by (try lia; rewrite Nat.add_0_r in Hk; subst k; lia).
    exists (s, c), w, []. cbn. rewrite app_nil_r.
    do 3 (split; [reflexivity|]).
    unfold kept_results. destruct (accuracy_consumes rt); apply leaked_refl.
  - pose proof (batch_fits B N k HB ltac:(lia)) as Hfit.
    rewrite (Iter2_Next_some xs ys k B N xrows yrows) by assumption.
    unfold bind at 1.
    destruct (BatchAccuracyForLogits_body_leaks (device xs) (device ys)
                (chunk B k xrows) (chunk B k yrows) s c w Hwf)
      as (s2 & w2 & new2 & Hrun & Hcalls & Hone & Hleak).
    rewrite Hrun.
    destruct (IH (S k) fuel (fst s2) (snd s2) w2 (leaked_wf _ _ _ Hwf Hleak)
                ltac:(lia) ltac:(lia))
      as (s3 & w3 & new & Hloop & Hcalls3 & Hlen & Hleak3).
    exists s3, w3, (new2 ++ new).
    split; [exact Hloop|].
    split; [rewrite Hcalls3, Hcalls; now rewrite <- app_assoc|].
    rewrite forward_results_app, length_app, Hone, Hlen.
    split; [reflexivity|].
    rewrite kept_results_app. eapply leaked_trans; eassumption.
Qed.

Lemma BatchAccuracyForLogits_sums_leaks (xs ys : Tensor) (B N : nat)
    (xrows yrows : list value) (fuel : nat) (w : World) :
  wf_world w ->
  content xs = Rows xrows -> content ys = Rows yrows ->
  length xrows = N -> length yrows = N ->
  (0 < B)%nat -> Z.of_nat N < 2 ^ 63 -> (N / B < fuel)%nat ->
  exists sums w' new,
    BatchAccuracyForLogits_sums fuel rt m xs ys d (Z.of_nat B) w = Ret sums w'
    /\ calls w' = calls w ++ new
    /\ length (forward_results new) = (N / B)%nat
    /\ leaked w w' (kept_results rt new).
Proof.
  intros Hwf Hx Hy Lx Ly HB HN Hfuel.
  unfold BatchAccuracyForLogits_sums, MustNewIter2, bind, MustSize0.
  rewrite Hx, Hy. cbn. rewrite Lx, Ly, Z.eqb_refl. cbn.
  apply (BatchAccuracyForLogits_loop_leaks xs ys B N xrows yrows Hx Hy Lx Ly
           HB HN (N / B) 0 fuel); [exact Hwf | reflexivity | exact Hfuel].
Qed.

(** X15: what [BatchAccuracyForLogits] leaves behind.  On [N] rows in
    batches of [B > 0], given fuel for its [N / B] batches, it returns with
    every resource live that was live before; the slices the iterator
    yields, their copies on the device and the accuracy scalars are all
    released.  The results of the forward passes, which the evaluator
    itself never drops, are live in addition exactly when the accuracy
    primitive leaves its receiver live: on a runtime that consumes them the
    evaluator ends with the very resources it started with, on one that
    does not with [N / B] more. *)
Theorem X15_iterator_evaluator_keeps_only_unconsumed_logits (xs ys : Tensor)
    (B N : nat) (xrows yrows : list value) (fuel : nat) (w : World) :
  wf_world w ->
  content xs = Rows xrows -> content ys = Rows yrows ->
  length xrows = N -> length yrows = N ->
  (0 < B)%nat -> Z.of_nat N < 2 ^ 63 -> (N / B < fuel)%nat ->
  exists v w' new,
    BatchAccuracyForLogits fuel rt m xs ys d (Z.of_nat B) w = Ret v w'
    /\ calls w' = calls w ++ new
    /\ live w' = live w ∪ list_to_set (kept_results rt new)
    /\ (accuracy_consumes rt = true -> live w' = live w)
    /\ size (live w')
       = (size (live w) + (if accuracy_consumes rt then 0 else N / B))%nat.
Proof.
  intros Hwf Hx Hy Lx Ly HB HN Hfuel.
  unfold BatchAccuracyForLogits, NewNoGradGuard, MustGradSetEnabled, defer.
  unfold bind at 1 2. unfold ret at 1. unfold bind at 1.
  destruct (BatchAccuracyForLogits_sums_leaks xs ys B N xrows yrows fuel
              (mkWorld false (live w) (next_handle w) (calls w))
              Hwf Hx Hy Lx Ly HB HN Hfuel)
    as (s3 & w3 & new & Hrun & Hcalls3 & Hcount & Hleak).
  rewrite Hrun. cbn. eexists _, _, new. split; [reflexivity|]. cbn.
  split; [exact Hcalls3|].
  pose proof (leaked_size _ w3 _ Hwf Hleak) as Hsize.
  destruct Hleak as (Hlive & _). cbn in Hlive, Hsize.
  split; [exact Hlive|].
  split.
  - intros Hconsumes. rewrite Hlive. unfold kept_results. rewrite Hconsumes.
    cbn. apply (right_id_L ∅ (∪)).
  - rewrite Hsize, kept_results_length, Hcount. reflexivity.
Qed.

End Coverage.

Lemma X13_witness :
  exists v w' new,
    BatchAccuracyForLogitsIdx reversing_runtime echo_module xs10 ys10
      (gotch.Cuda 0) (Z.of_nat 3) world0 = Ret v w'
    /\ calls w' = calls world0 ++ new
    /\ flat_map batch_rows (forward_inputs new)
       = take (10 / 3 * 3)%nat
           (rows_at (randperm reversing_runtime 10) (batch_rows (rows_upto 10)))
    /\ flat_map batch_rows (accuracy_targets new)
       = take (10 / 3 * 3)%nat
           (rows_at (randperm reversing_runtime 10) (batch_rows (rows_upto 10)))
    /\ flat_map batch_rows (forward_inputs new) ⊆+ batch_rows (rows_upto 10)
    /\ ((10 mod 3 = 0)%nat ->
        flat_map batch_rows (forward_inputs new) ≡ₚ batch_rows (rows_upto 10)).
Proof.
  apply (X13_idx_evaluator_sees_a_prefix_of_the_shuffle reversing_runtime
           echo_module (gotch.Cuda 0) xs10 ys10 3%nat 10%nat
           (batch_rows (rows_upto 10)) (batch_rows (rows_upto 10)));
    try reflexivity; try (cbn; lia).
  apply (bool_decide_unpack _). vm_compute. exact I.
Defined.

Lemma X15_witness :
  exists v w' new,
    BatchAccuracyForLogits 4 reversing_runtime echo_module xs10 ys10
      (gotch.Cuda 0) (Z.of_nat 3) world0 = Ret v w'
    /\ calls w' = calls world0 ++ new
    /\ live w' = live world0 ∪ list_to_set (kept_results reversing_runtime new)
    /\ (accuracy_consumes reversing_runtime = true -> live w' = live world0)
    /\ size (live w')
       = (size (live world0)
          + (if accuracy_consumes reversing_runtime then 0 else 10 / 3))%nat.
Proof.
  apply (X15_iterator_evaluator_keeps_only_unconsumed_logits reversing_runtime
           echo_module (gotch.Cuda 0) xs10 ys10 3%nat 10%nat
           (batch_rows (rows_upto 10)) (batch_rows (rows_upto 10)));
    try reflexivity; try (cbn; lia).
  intros h Hh. cbn in *. set_unfold. intuition lia.
Defined.

Lemma X16_witness :
  exists w',
    BatchAccuracyForLogits 4 reversing_runtime echo_module xs10 ys10
      (gotch.Cuda 0) (Z.of_nat 3) world0
    = Ret (let s := weighted_sums (float64_of_Z (Z.of_nat 3))
                      (map (batch_accuracy reversing_runtime echo_module false 3
                              (batch_rows (rows_upto 10))
                              (batch_rows (rows_upto 10)))
                           (seq 0 (10 / 3))) (0%float, 0%float)
           in (fst s / snd s)%float) w'
    /\ grad_enabled w' = grad_enabled world0.
Proof.
  apply (X16_iterator_evaluator_weighs_by_batch_size reversing_runtime
           echo_module (gotch.Cuda 0) xs10 ys10 3%nat 10%nat
           (batch_rows (rows_upto 10)) (batch_rows (rows_upto 10)));
    try reflexivity; cbn; lia.
Defined.

Lemma X17_witness :
  exists w',
    BatchAccuracyForLogitsIdx reversing_runtime echo_module xs10 ys10
      (gotch.Cuda 0) (Z.of_nat 3) world0
    = Ret (let s := weighted_sums (float64_of_Z (Z.of_nat 10))
                      (map (batch_accuracy reversing_runtime echo_module true 3
                              (rows_at (randperm reversing_runtime 10)
                                       (batch_rows (rows_upto 10)))
                              (rows_at (randperm reversing_runtime 10)
                                       (batch_rows (rows_upto 10))))
                           (seq 0 (10 / 3))) (0%float, 0%float)
           in (fst s / snd s)%float) w'.
Proof.
  apply (X17_idx_evaluator_weighs_by_total_size reversing_runtime
           echo_module (gotch.Cuda 0) xs10 ys10 3%nat 10%nat
           (batch_rows (rows_upto 10)) (batch_rows (rows_upto 10)));
    try reflexivity; try (cbn; lia).
  apply (bool_decide_unpack _). vm_compute. exact I.
Defined.

End tensor_extras.
